(** * mapviz_plugins::PosePublisherPlugin

    A shallow embedding of [mapviz_plugins/src/pose_publisher_plugin.cpp]:
    the mouse handlers, the topic slot and the periodic frame-list refresh,
    together with the small part of Qt, tf and libm they call.

    Conventions.
    - C++ [double] values are idealised as real numbers ([R]); rounding,
      NaN, infinities and signed zeros are outside the model.
    - [std::string] and [QString] are both [string]; the conversions between
      them are the identity.
    - A handler returns the value the C++ handler returns, the list of
      publish calls it made, and the plugin afterwards.
    - [Draw] and [SaveConfig] do not change the plugin; they return the
      OpenGL calls made and the pairs emitted.  The cursor slot
      [on_pushButtonPose_toggled] only touches the application cursor and
      is left out. *)

From Stdlib Require Import Reals Lra List String Bool ZArith Lia ZifyBool.
Import ListNotations.

Local Open Scope Z_scope.

(** ** Qt: the widgets and events the plugin touches *)

Module Qt.

Record QPointF := mkQPointF { x : R; y : R }.

Inductive MouseButton := LeftButton | RightButton | MiddleButton.

Record QMouseEvent := mkQMouseEvent
  { button : MouseButton; localPos : QPointF }.

(** A non-editable QComboBox: the item texts and the current index
    ([-1] when no item is current). *)
Record QComboBox := mkQComboBox
  { items : list string; currentIndex : Z }.

Definition count (cb : QComboBox) : Z := Z.of_nat (List.length (items cb)).

(** [itemText] is the empty string outside [0 .. count-1]. *)
Definition itemText (cb : QComboBox) (i : Z) : string :=
  if (0 <=? i) && (i <? count cb)
  then nth (Z.to_nat i) (items cb) EmptyString
  else EmptyString.

Definition currentText (cb : QComboBox) : string :=
  itemText cb (currentIndex cb).

Definition clear (cb : QComboBox) : QComboBox :=
  {| items := []; currentIndex := -1 |}.

(** Appending to an empty box makes the new item current. *)
Definition addItem (text : string) (cb : QComboBox) : QComboBox :=
  {| items := (items cb ++ [text])%list;
     currentIndex := match items cb with
                     | [] => 0
                     | _ :: _ => currentIndex cb
                     end |}.

Fixpoint findText_from (text : string) (l : list string) (i : Z) : Z :=
  match l with
  | [] => -1
  | t :: l' => if String.eqb t text then i else findText_from text l' (i + 1)
  end.

(** Exact, case-sensitive match; the first index, or [-1]. *)
Definition findText (text : string) (cb : QComboBox) : Z :=
  findText_from text (items cb) 0.

Definition setCurrentIndex (i : Z) (cb : QComboBox) : QComboBox :=
  {| items := items cb;
     currentIndex := if (0 <=? i) && (i <? count cb) then i else -1 |}.

End Qt.

(** ** libm

    The C library's [atan2], on reals. *)

Module Libm.
Local Open Scope R_scope.

(** The two-argument arctangent on reals, with [atan2 0 0 = 0]. *)
Definition atan2 (y x : R) : R :=
  if Rlt_dec 0 x then atan (y / x)
  else if Rlt_dec x 0 then
    (if Rle_dec 0 y then atan (y / x) + PI else atan (y / x) - PI)
  else if Rlt_dec 0 y then PI / 2
  else if Rlt_dec y 0 then - (PI / 2)
  else 0.

End Libm.

(** ** tf: quaternions

    [setRPY], [createQuaternionFromYaw], [length2], [normalize] and the
    tolerance follow the headers of the tf library. *)

Module tf.
Local Open Scope R_scope.

Record Quaternion := mkQuaternion { x : R; y : R; z : R; w : R }.

Definition setRPY (roll pitch yaw : R) : Quaternion :=
  let halfYaw := yaw * (1 / 2) in
  let halfPitch := pitch * (1 / 2) in
  let halfRoll := roll * (1 / 2) in
  let cosYaw := cos halfYaw in
  let sinYaw := sin halfYaw in
  let cosPitch := cos halfPitch in
  let sinPitch := sin halfPitch in
  let cosRoll := cos halfRoll in
  let sinRoll := sin halfRoll in
  {| x := sinRoll * cosPitch * cosYaw - cosRoll * sinPitch * sinYaw;
     y := cosRoll * sinPitch * cosYaw + sinRoll * cosPitch * sinYaw;
     z := cosRoll * cosPitch * sinYaw - sinRoll * sinPitch * cosYaw;
     w := cosRoll * cosPitch * cosYaw + sinRoll * sinPitch * sinYaw |}.

Definition createQuaternionFromYaw (yaw : R) : Quaternion :=
  setRPY 0 0 yaw.

Definition length2 (q : Quaternion) : R :=
  x q * x q + y q * y q + z q * z q + w q * w q.

Definition normalize (q : Quaternion) : Quaternion :=
  let s := 1 / sqrt (length2 q) in
  {| x := x q * s; y := y q * s; z := z q * s; w := w q * s |}.

Definition QUATERNION_TOLERANCE : R := 1 / 10.

End tf.

(** ** geometry_msgs::PoseWithCovarianceStamped *)

Module Msg.

Record Time := mkTime { sec : Z; nsec : Z }.
Record Header := mkHeader { frame_id : string; stamp : Time }.
Record Point := mkPoint { px : R; py : R; pz : R }.
Record Quaternion := mkQuaternion { qx : R; qy : R; qz : R; qw : R }.
Record Pose := mkPose { position : Point; orientation : Quaternion }.
Record PoseWithCovariance := mkPoseWithCovariance
  { pose : Pose; covariance : list R }.
(** The C++ field [pose] of the stamped message is [pose_cov] here. *)
Record PoseWithCovarianceStamped := mkPoseWithCovarianceStamped
  { header : Header; pose_cov : PoseWithCovariance }.

(** The covariance of a freshly constructed message: 36 zeros. *)
Definition default_covariance : list R := repeat 0%R 36.

End Msg.

(** [tf::quaternionTFToMsg]: a quaternion that is off unit length by more
    than the tolerance is normalised before it is copied. *)
Definition quaternionTFToMsg (bt : tf.Quaternion) : Msg.Quaternion :=
  if Rlt_dec tf.QUATERNION_TOLERANCE (Rabs (tf.length2 bt - 1))
  then let bt_temp := tf.normalize bt in
       Msg.mkQuaternion (tf.x bt_temp) (tf.y bt_temp) (tf.z bt_temp) (tf.w bt_temp)
  else Msg.mkQuaternion (tf.x bt) (tf.y bt) (tf.z bt) (tf.w bt).

(** ** The plugin *)

(** [ros::Publisher]: [None] for the default-constructed (unbound) one,
    [Some t] once [advertise] bound it to topic [t]. *)
Definition Publisher := option string.

(** One call [pose_pub_.publish(pose)], with the binding the publisher had
    at the call.  A call on an unbound publisher reaches no topic. *)
Inductive Effect :=
| Publish (target : Publisher) (msg : Msg.PoseWithCovarianceStamped).

Definition delivered (e : Effect) : option (string * Msg.PoseWithCovarianceStamped) :=
  match e with
  | Publish (Some t) m => Some (t, m)
  | Publish None _ => None
  end.

(** The host canvas: pixel coordinates to the fixed frame. *)
Record MapCanvas := mkMapCanvas
  { MapGlCoordToFixedFrame : Qt.QPointF -> Qt.QPointF }.

(** The widgets of the configuration form ([ui_]). *)
Record Ui := mkUi
  { pushButtonPose_checked : bool;
    pushButtonPose_enabled : bool;
    topic : string;
    status : string;
    outputframe : Qt.QComboBox }.

Record PosePublisherPlugin := mkPlugin
  { ui_ : Ui;
    is_mouse_down_ : bool;
    monitoring_action_state_ : bool;
    arrow_tail_position_ : Qt.QPointF;
    arrow_angle_ : R;
    pose_pub_ : Publisher;
    (* inherited from MapvizPlugin; the host sets it, the plugin reads it *)
    target_frame_ : string }.

Definition with_ui (f : Ui -> Ui) (p : PosePublisherPlugin) : PosePublisherPlugin :=
  mkPlugin (f (ui_ p)) (is_mouse_down_ p) (monitoring_action_state_ p)
           (arrow_tail_position_ p) (arrow_angle_ p) (pose_pub_ p)
           (target_frame_ p).

Definition set_status (m : string) (u : Ui) : Ui :=
  mkUi (pushButtonPose_checked u) (pushButtonPose_enabled u) (topic u) m
       (outputframe u).

Definition set_checked (b : bool) (u : Ui) : Ui :=
  mkUi b (pushButtonPose_enabled u) (topic u) (status u) (outputframe u).

Definition set_enabled (b : bool) (u : Ui) : Ui :=
  mkUi (pushButtonPose_checked u) b (topic u) (status u) (outputframe u).

Definition set_topic (t : string) (u : Ui) : Ui :=
  mkUi (pushButtonPose_checked u) (pushButtonPose_enabled u) t (status u)
       (outputframe u).

Definition set_outputframe (cb : Qt.QComboBox) (u : Ui) : Ui :=
  mkUi (pushButtonPose_checked u) (pushButtonPose_enabled u) (topic u)
       (status u) cb.

Definition set_mouse_down (b : bool) (p : PosePublisherPlugin) : PosePublisherPlugin :=
  mkPlugin (ui_ p) b (monitoring_action_state_ p) (arrow_tail_position_ p)
           (arrow_angle_ p) (pose_pub_ p) (target_frame_ p).

Definition set_arrow_tail (q : Qt.QPointF) (p : PosePublisherPlugin) : PosePublisherPlugin :=
  mkPlugin (ui_ p) (is_mouse_down_ p) (monitoring_action_state_ p) q
           (arrow_angle_ p) (pose_pub_ p) (target_frame_ p).

Definition set_arrow_angle (a : R) (p : PosePublisherPlugin) : PosePublisherPlugin :=
  mkPlugin (ui_ p) (is_mouse_down_ p) (monitoring_action_state_ p)
           (arrow_tail_position_ p) a (pose_pub_ p) (target_frame_ p).

Definition set_pose_pub (pb : Publisher) (p : PosePublisherPlugin) : PosePublisherPlugin :=
  mkPlugin (ui_ p) (is_mouse_down_ p) (monitoring_action_state_ p)
           (arrow_tail_position_ p) (arrow_angle_ p) pb (target_frame_ p).

(** Modelled from the spec: [PrintInfo] forwards to the base class helper
    [PrintInfoHelper], which is not part of this file; it shows the message
    as the status line of the configuration form. *)
Definition PrintInfo (message : string) (p : PosePublisherPlugin) : PosePublisherPlugin :=
  with_ui (set_status message) p.

(** The plugin as the constructor leaves it.  [arrow_angle_] is not
    initialised by the constructor and [target_frame_] belongs to the host,
    so both are arguments. *)
Definition PosePublisherPlugin_new (angle0 : R) (target : string) : PosePublisherPlugin :=
  {| ui_ := {| pushButtonPose_checked := false;
               pushButtonPose_enabled := true;
               topic := EmptyString;
               status := "OK";
               outputframe := Qt.mkQComboBox [] (-1) |};
     is_mouse_down_ := false;
     monitoring_action_state_ := false;
     arrow_tail_position_ := Qt.mkQPointF 0 0;
     arrow_angle_ := angle0;
     pose_pub_ := None;
     target_frame_ := target |}.

Definition timerCallback (p : PosePublisherPlugin) : PosePublisherPlugin :=
  PrintInfo "OK" (with_ui (set_enabled true) p).

(** What a handler hands back: the C++ return value, the publish calls made,
    and the plugin afterwards. *)
Record Outcome := mkOutcome
  { consumed : bool; effects : list Effect; after : PosePublisherPlugin }.

Definition handleMousePress (map_canvas_ : MapCanvas) (event : Qt.QMouseEvent)
    (p : PosePublisherPlugin) : Outcome :=
  let pose_checked := pushButtonPose_checked (ui_ p) in
  if negb pose_checked then mkOutcome false [] p
  else match Qt.button event with
       | Qt.LeftButton =>
           let p := set_mouse_down true p in
           let p := set_arrow_angle 0 p in
           let p := set_arrow_tail
                      (MapGlCoordToFixedFrame map_canvas_ (Qt.localPos event)) p in
           mkOutcome true [] p
       | _ => mkOutcome false [] p
       end.

Definition handleMouseMove (map_canvas_ : MapCanvas) (event : Qt.QMouseEvent)
    (p : PosePublisherPlugin) : Outcome :=
  if is_mouse_down_ p then
    let head_pos := MapGlCoordToFixedFrame map_canvas_ (Qt.localPos event) in
    let p := set_arrow_angle
               (Libm.atan2 (Qt.y head_pos - Qt.y (arrow_tail_position_ p))
                           (Qt.x head_pos - Qt.x (arrow_tail_position_ p))) p in
    mkOutcome false [] p
  else mkOutcome false [] p.

(** The status line written after a publish; the missing blank before
    "in frame" is the source's. *)
Definition published_status (p : PosePublisherPlugin) : string :=
  ("Pose published to to topic: " ++ topic (ui_ p) ++ "in frame "
     ++ target_frame_ p)%string.

(** [now] is the value [ros::Time::now()] returns during the call. *)
Definition handleMouseRelease (now : Msg.Time) (event : Qt.QMouseEvent)
    (p : PosePublisherPlugin) : Outcome :=
  if negb (is_mouse_down_ p) then mkOutcome false [] p
  else
    let p := set_mouse_down false p in
    let pose_checked := pushButtonPose_checked (ui_ p) in
    if negb pose_checked then mkOutcome false [] p
    else
      let quat := tf.createQuaternionFromYaw (arrow_angle_ p) in
      if pose_checked then
        let pose :=
          {| Msg.header := {| Msg.frame_id := target_frame_ p;
                              Msg.stamp := now |};
             Msg.pose_cov :=
               {| Msg.pose :=
                    {| Msg.position :=
                         {| Msg.px := Qt.x (arrow_tail_position_ p);
                            Msg.py := Qt.y (arrow_tail_position_ p);
                            Msg.pz := 0 |};
                       Msg.orientation := quaternionTFToMsg quat |};
                  Msg.covariance := Msg.default_covariance |} |} in
        let out := [Publish (pose_pub_ p) pose] in
        let p := with_ui (set_checked false) p in
        let ss := published_status p in
        let p := PrintInfo ss p in
        let p := PrintInfo ss p in
        mkOutcome true out p
      else mkOutcome true [] p.

(** [QEvent::type()] as far as [eventFilter] distinguishes it. *)
Inductive QEvent :=
| MouseButtonPress (e : Qt.QMouseEvent)
| MouseButtonRelease (e : Qt.QMouseEvent)
| MouseMove (e : Qt.QMouseEvent)
| OtherEvent.

Definition eventFilter (map_canvas_ : MapCanvas) (now : Msg.Time) (event : QEvent)
    (p : PosePublisherPlugin) : Outcome :=
  match event with
  | MouseButtonPress e => handleMousePress map_canvas_ e p
  | MouseButtonRelease e => handleMouseRelease now e p
  | MouseMove e => handleMouseMove map_canvas_ e p
  | OtherEvent => mkOutcome false [] p
  end.

Definition topicChanged (topic : string) (p : PosePublisherPlugin) : PosePublisherPlugin :=
  let p := PrintInfo ("Publishing points to topic: " ++ topic)%string p in
  if negb (String.eqb topic EmptyString)
  then set_pose_pub (Some topic) p
  else p.

(** Modelled from the spec: the well-known name of the geodetic frame,
    [swri_transform_util::_wgs84_frame], is declared outside this file. *)
Definition _wgs84_frame : string := "/wgs84".

(** [for (auto f: frames) ss << f << ", "] *)
Definition stream_frames (frames : list string) : string :=
  fold_left (fun ss f => (ss ++ f ++ ", ")%string) frames EmptyString.

(** The comparison loop of [updateFrames], from index [i] on. *)
Fixpoint frames_changed (frames : list string) (cb : Qt.QComboBox) (i : Z)
    (changed : bool) : bool :=
  match frames with
  | [] => changed
  | f :: rest =>
      frames_changed rest cb (i + 1)
        (if negb (String.eqb f (Qt.itemText cb i)) then true else changed)
  end.

(** The loop that refills the box, one status line per item. *)
Definition add_frames (frames : list string) (p : PosePublisherPlugin) : PosePublisherPlugin :=
  fold_left
    (fun p f =>
       let p := with_ui (fun u => set_outputframe (Qt.addItem f (outputframe u)) u) p in
       PrintInfo ("adding " ++ f)%string p)
    frames p.

(** [tf_frames] is what [tf_->getFrameStrings] returns and [supports_wgs84]
    what [tf_manager_->SupportsTransform] answers during this tick. *)
Definition updateFrames (tf_frames : list string) (supports_wgs84 : bool)
    (p : PosePublisherPlugin) : PosePublisherPlugin :=
  let frames := tf_frames in
  let p := PrintInfo ("tf_ knows about: " ++ stream_frames frames)%string p in
  let frames := if supports_wgs84 then (frames ++ [_wgs84_frame])%list else frames in
  let p := PrintInfo ("possibly including wgs84: " ++ stream_frames frames)%string p in
  if (0 <=? Qt.count (outputframe (ui_ p)))
     && (Qt.count (outputframe (ui_ p)) =? Z.of_nat (List.length frames))
  then
    let changed := frames_changed frames (outputframe (ui_ p)) 0 false in
    let p := if negb changed then PrintInfo "frame not changed" p else p in
    (* the [return] is not governed by [if (!changed)] *)
    p
  else
    let current_output := Qt.currentText (outputframe (ui_ p)) in
    let p := PrintInfo ("current_output = " ++ current_output)%string p in
    let p := with_ui (fun u => set_outputframe (Qt.clear (outputframe u)) u) p in
    let p := add_frames frames p in
    if negb (String.eqb current_output EmptyString) then
      let index := Qt.findText current_output (outputframe (ui_ p)) in
      let p := if index <? 0
               then with_ui (fun u => set_outputframe
                                        (Qt.addItem current_output (outputframe u)) u) p
               else p in
      let index := Qt.findText current_output (outputframe (ui_ p)) in
      let p := with_ui (fun u => set_outputframe
                                   (Qt.setCurrentIndex index (outputframe u)) u) p in
      PrintInfo ("setting frame to " ++ current_output)%string p
    else PrintInfo "current output is blank..." p.

(** The two keys [LoadConfig] looks for; [None] when the key is absent. *)
Definition LoadConfig (topic_key output_frame_key : option string)
    (p : PosePublisherPlugin) : PosePublisherPlugin :=
  let p := match topic_key with
           | Some tmp =>
               let p := with_ui (set_topic tmp) p in
               topicChanged (topic (ui_ p)) p
           | None => p
           end in
  match output_frame_key with
  | Some tmp => with_ui (fun u => set_outputframe (Qt.addItem tmp (outputframe u)) u) p
  | None => p
  end.

(** ** The plugin as a state machine

    Everything that reaches the plugin on the single UI thread: events
    filtered from the canvas, the user's edits of the form, the two timers. *)
Inductive Input :=
| CanvasEvent (map_canvas_ : MapCanvas) (now : Msg.Time) (event : QEvent)
| TopicEdited (text : string)          (* signal textEdited of ui_.topic *)
| PoseButtonSet (checked : bool)       (* the user toggles ui_.pushButtonPose *)
| FrameChosen (index : Z)              (* the user picks an entry of ui_.outputframe *)
| Timer                                (* timer_ *)
| FrameTimer (tf_frames : list string) (supports_wgs84 : bool)   (* frame_timer_ *)
| ConfigLoaded (topic_key output_frame_key : option string).

Definition step (i : Input) (p : PosePublisherPlugin) : Outcome :=
  match i with
  | CanvasEvent c now e => eventFilter c now e p
  | TopicEdited t => mkOutcome false [] (topicChanged t (with_ui (set_topic t) p))
  | PoseButtonSet b => mkOutcome false [] (with_ui (set_checked b) p)
  | FrameChosen index =>
      mkOutcome false []
        (with_ui (fun u => set_outputframe (Qt.setCurrentIndex index (outputframe u)) u) p)
  | Timer => mkOutcome false [] (timerCallback p)
  | FrameTimer fs w => mkOutcome false [] (updateFrames fs w p)
  | ConfigLoaded t f => mkOutcome false [] (LoadConfig t f p)
  end.

(** Run a trace of inputs; the publish calls are collected in order. *)
Fixpoint run (tr : list Input) (p : PosePublisherPlugin) : list Effect * PosePublisherPlugin :=
  match tr with
  | [] => ([], p)
  | i :: tr' =>
      let o := step i p in
      let (es, p') := run tr' (after o) in
      ((effects o ++ es)%list, p')
  end.

(** The text an input passes to [topicChanged], if it calls it. *)
Definition topic_text_of (i : Input) : option string :=
  match i with
  | TopicEdited t => Some t
  | ConfigLoaded (Some t) _ => Some t
  | _ => None
  end.

(** The texts passed to [topicChanged] along a trace, oldest first. *)
Fixpoint topic_edits (tr : list Input) : list string :=
  match tr with
  | [] => []
  | i :: tr' =>
      match topic_text_of i with
      | Some t => t :: topic_edits tr'
      | None => topic_edits tr'
      end
  end.

(** The last non-empty text of a list of topic texts, or [start]. *)
Fixpoint last_nonempty (texts : list string) (start : Publisher) : Publisher :=
  match texts with
  | [] => start
  | t :: rest =>
      last_nonempty rest (if String.eqb t EmptyString then start else Some t)
  end.

(** The candidate list of a refresh tick. *)
Definition candidates (tf_frames : list string) (supports_wgs84 : bool) : list string :=
  if supports_wgs84 then (tf_frames ++ [_wgs84_frame])%list else tf_frames.

(** What a rebuild of the frame box shows for candidates [frames] when
    [current_output] was selected before. *)
Definition rebuilt (frames : list string) (current_output : string) : Qt.QComboBox :=
  if String.eqb current_output EmptyString
  then Qt.mkQComboBox frames (match frames with [] => -1 | _ :: _ => 0 end)
  else if in_dec string_dec current_output frames
       then Qt.mkQComboBox frames (Qt.findText_from current_output frames 0)
       else Qt.mkQComboBox (frames ++ [current_output])%list
                           (Z.of_nat (List.length frames)).

(** The rotation by [angle] about the vertical axis, as a unit quaternion. *)
Definition yaw_quaternion (angle : R) : Msg.Quaternion :=
  Msg.mkQuaternion 0 0 (sin (angle / 2)) (cos (angle / 2)).

(** Is the input a mouse move on the canvas? *)
Definition is_move (i : Input) : bool :=
  match i with
  | CanvasEvent _ _ (MouseMove _) => true
  | _ => false
  end.

(** A session, if one is active, still has the angle the press gave it. *)
Definition angle_untouched (p : PosePublisherPlugin) : Prop :=
  is_mouse_down_ p = true -> arrow_angle_ p = 0%R.

(** Every pose among the publish calls [es] has yaw 0. *)
Definition all_yaw_zero (es : list Effect) : Prop :=
  forall tgt m,
    In (Publish tgt m) es ->
    Msg.orientation (Msg.pose (Msg.pose_cov m)) = yaw_quaternion 0.

(** An identity canvas and a sample instant, for the examples. *)
Definition canvas_id : MapCanvas := mkMapCanvas (fun q => q).
Definition t0 : Msg.Time := Msg.mkTime 100 0.

Definition left_at (px py : R) : Qt.QMouseEvent :=
  Qt.mkQMouseEvent Qt.LeftButton (Qt.mkQPointF px py).

(** ** Drawing the arrow

    [tf::Vector3], the rotation matrix [tf::Matrix3x3::setRotation] builds
    from a quaternion, and [tf::Transform(q) * v] with the origin at zero. *)

Module tf3.
Local Open Scope R_scope.

Record Vector3 := mkVector3 { x : R; y : R; z : R }.

(** [v *= s] *)
Definition scale (v : Vector3) (s : R) : Vector3 :=
  mkVector3 (x v * s) (y v * s) (z v * s).

Definition dot (a b : Vector3) : R := x a * x b + y a * y b + z a * z b.

Record Matrix3x3 := mkMatrix3x3 { row0 : Vector3; row1 : Vector3; row2 : Vector3 }.

Definition setRotation (q : tf.Quaternion) : Matrix3x3 :=
  let d := tf.length2 q in
  let s := 2 / d in
  let xs := tf.x q * s in let ys := tf.y q * s in let zs := tf.z q * s in
  let wx := tf.w q * xs in let wy := tf.w q * ys in let wz := tf.w q * zs in
  let xx := tf.x q * xs in let xy := tf.x q * ys in let xz := tf.x q * zs in
  let yy := tf.y q * ys in let yz := tf.y q * zs in let zz := tf.z q * zs in
  mkMatrix3x3
    (mkVector3 (1 - (yy + zz)) (xy - wz) (xz + wy))
    (mkVector3 (xy + wz) (1 - (xx + zz)) (yz - wx))
    (mkVector3 (xz - wy) (yz + wx) (1 - (xx + yy))).

(** [tf::Transform(q) * v]: the basis applied to [v], plus a zero origin. *)
Definition Transform_apply (q : tf.Quaternion) (v : Vector3) : Vector3 :=
  let m := setRotation q in
  mkVector3 (dot (row0 m) v + 0) (dot (row1 m) v + 0) (dot (row2 m) v + 0).

End tf3.

Inductive GLMode := GL_TRIANGLE_FAN | GL_LINE_LOOP.

(** The OpenGL calls [Draw] makes, in order. *)
Inductive GLCommand :=
| glColor3f (r g b : R)
| glLineWidth (width : R)
| glBegin (mode : GLMode)
| glVertex2d (vx vy : R)
| glEnd.

Definition arrow_points : list Qt.QPointF :=
  [ Qt.mkQPointF 10 0;
    Qt.mkQPointF 6 (- (5 / 2));
    Qt.mkQPointF (13 / 2) (- 1);
    Qt.mkQPointF 0 (- 1);
    Qt.mkQPointF 0 1;
    Qt.mkQPointF (13 / 2) 1;
    Qt.mkQPointF 6 (5 / 2) ].

(** The body of the first loop of [Draw], for one arrow point. *)
Definition transformed_point (scale : R) (p : PosePublisherPlugin)
    (arrow_point : Qt.QPointF) : Qt.QPointF :=
  let point := tf3.mkVector3 (Qt.x arrow_point) (Qt.y arrow_point) 0 in
  let point := tf3.scale point (scale * 10) in
  let point := tf3.Transform_apply
                 (tf.createQuaternionFromYaw (arrow_angle_ p)) point in
  Qt.mkQPointF (tf3.x point + Qt.x (arrow_tail_position_ p))
               (tf3.y point + Qt.y (arrow_tail_position_ p)).

Definition gl_vertices (points : list Qt.QPointF) : list GLCommand :=
  map (fun point => glVertex2d (Qt.x point) (Qt.y point)) points.

Definition Draw (x y scale : R) (p : PosePublisherPlugin) : list GLCommand :=
  if is_mouse_down_ p then
    let transformed_points := map (transformed_point scale p) arrow_points in
    ([glColor3f (1 / 10) (9 / 10) (1 / 10); glLineWidth 2; glBegin GL_TRIANGLE_FAN]
       ++ gl_vertices transformed_points ++ [glEnd]
       ++ [glColor3f 0 (6 / 10) 0; glBegin GL_LINE_LOOP]
       ++ gl_vertices transformed_points ++ [glEnd])%list
  else [].

(** The arrow point [q] turned by [angle], stretched by [10 * scale] and
    moved to [tail]. *)
Definition placed (scale angle : R) (tail q : Qt.QPointF) : Qt.QPointF :=
  Qt.mkQPointF
    (Qt.x tail + 10 * scale * (cos angle * Qt.x q - sin angle * Qt.y q))
    (Qt.y tail + 10 * scale * (sin angle * Qt.x q + cos angle * Qt.y q)).

(** ** Saving and loading the configuration

    A YAML map as the list of its key/value pairs; a key is found at its
    first occurrence. *)
Definition YamlNode := list (string * string).

Fixpoint FindValue (node : YamlNode) (key : string) : option string :=
  match node with
  | [] => None
  | (k, v) :: rest => if String.eqb k key then Some v else FindValue rest key
  end.

(** [LoadConfig] on a node: each key is read if [FindValue] finds it. *)
Definition LoadConfig_node (node : YamlNode) (p : PosePublisherPlugin) : PosePublisherPlugin :=
  LoadConfig (FindValue node "topic") (FindValue node "output_frame") p.

(** The pairs [SaveConfig] emits. *)
Definition SaveConfig (p : PosePublisherPlugin) : YamlNode :=
  [ ("topic", topic (ui_ p));
    ("output_frame", Qt.currentText (outputframe (ui_ p))) ]%string.

(** ** Predicates on inputs and traces *)

Definition is_arming (i : Input) : bool :=
  match i with
  | PoseButtonSet true => true
  | _ => false
  end.

Definition is_release (i : Input) : bool :=
  match i with
  | CanvasEvent _ _ (MouseButtonRelease _) => true
  | _ => false
  end.

Definition is_left (b : Qt.MouseButton) : bool :=
  match b with
  | Qt.LeftButton => true
  | _ => false
  end.

(** Inputs that neither start nor end a session nor touch the toggle or
    the topic: mouse moves, other canvas events and the two timers. *)
Definition is_passive (i : Input) : bool :=
  match i with
  | CanvasEvent _ _ (MouseMove _) => true
  | CanvasEvent _ _ OtherEvent => true
  | Timer => true
  | FrameTimer _ _ => true
  | _ => false
  end.

(** The heading a list of mouse moves leaves behind, starting from [a]. *)
Fixpoint heading_after (tail : Qt.QPointF) (moves : list (MapCanvas * Qt.QMouseEvent))
    (a : R) : R :=
  match moves with
  | [] => a
  | (c, e) :: rest =>
      let head := MapGlCoordToFixedFrame c (Qt.localPos e) in
      heading_after tail rest
        (Libm.atan2 (Qt.y head - Qt.y tail) (Qt.x head - Qt.x tail))
  end.

Definition move_inputs (now : Msg.Time) (moves : list (MapCanvas * Qt.QMouseEvent)) : list Input :=
  map (fun ce => CanvasEvent (fst ce) now (MouseMove (snd ce))) moves.

Definition refresh_inputs (ticks : list (list string * bool)) : list Input :=
  map (fun t => FrameTimer (fst t) (snd t)) ticks.

(** Two plugins that differ at most in the status line and the frame box. *)
Definition same_but_status_and_box (p q : PosePublisherPlugin) : Prop :=
  exists st cb, q = with_ui (fun u => set_outputframe cb (set_status st u)) p.

(** The number of times the toggle is switched on along a trace. *)
Definition armings (tr : list Input) : nat :=
  List.length (filter is_arming tr).

(** ** Quaternions *)

Section Quaternions.
Local Open Scope R_scope.

Lemma createQuaternionFromYaw_components (yaw : R) :
  tf.createQuaternionFromYaw yaw
  = tf.mkQuaternion 0 0 (sin (yaw / 2)) (cos (yaw / 2)).
Proof.
  unfold tf.createQuaternionFromYaw, tf.setRPY.
  replace (0 * (1 / 2)) with 0 by lra.
  replace (yaw * (1 / 2)) with (yaw / 2) by lra.
  rewrite sin_0, cos_0.
  f_equal; ring.
Qed.

Lemma createQuaternionFromYaw_unit (yaw : R) :
  tf.length2 (tf.createQuaternionFromYaw yaw) = 1.
Proof.
  rewrite createQuaternionFromYaw_components.
  unfold tf.length2; cbn.
  pose proof (sin2_cos2 (yaw / 2)) as H.
  unfold Rsqr in H. lra.
Qed.

Lemma quaternionTFToMsg_yaw (yaw : R) :
  quaternionTFToMsg (tf.createQuaternionFromYaw yaw) = yaw_quaternion yaw.
Proof.
  unfold quaternionTFToMsg.
  rewrite createQuaternionFromYaw_unit.
  destruct (Rlt_dec _ _) as [Hbig | _].
  - exfalso. unfold tf.QUATERNION_TOLERANCE in Hbig.
    replace (1 - 1) with 0 in Hbig by ring.
    rewrite Rabs_R0 in Hbig. lra.
  - rewrite createQuaternionFromYaw_components. reflexivity.
Qed.


End Quaternions.

(** ** The two-argument arctangent *)

Section Atan2.
Local Open Scope R_scope.

Lemma hyp_pos (dx dy : R) : (dx, dy) <> (0, 0) -> 0 < dx * dx + dy * dy.
Proof.
  intros Hne.
  destruct (Req_dec dx 0) as [Hx | Hx]; destruct (Req_dec dy 0) as [Hy | Hy];
    subst; try nra.
  now contradiction Hne.
Qed.

(** Cosine and sine of [atan (dy / dx)] scaled by the hypotenuse. *)
Lemma atan_ratio (dx dy : R) :
  dx <> 0 ->
  sqrt (dx * dx + dy * dy) * cos (atan (dy / dx)) = Rabs dx /\
  sqrt (dx * dx + dy * dy) * sin (atan (dy / dx)) = Rabs dx * (dy / dx).
Proof.
  intros Hx.
  rewrite cos_atan, sin_atan.
  assert (Hsq : dx * dx + dy * dy = (Rabs dx)² * (1 + (dy / dx)²)).
  { rewrite <- Rsqr_abs. unfold Rsqr. field. exact Hx. }
  assert (H1 : 0 < 1 + (dy / dx)²) by (pose proof (Rle_0_sqr (dy / dx)); lra).
  assert (Hs : 0 < sqrt (1 + (dy / dx)²)) by now apply sqrt_lt_R0.
  rewrite Hsq, sqrt_mult; [ | apply Rle_0_sqr | lra ].
  rewrite sqrt_Rsqr by apply Rabs_pos.
  split; field; lra.
Qed.

(** [atan2] is the polar angle of [(dx, dy)], in the half-open turn
    [(-PI, PI]]. *)
Lemma atan2_polar (dx dy : R) :
  (dx, dy) <> (0, 0) ->
  let r := sqrt (dx * dx + dy * dy) in
  let a := Libm.atan2 dy dx in
  r * cos a = dx /\ r * sin a = dy /\ - PI < a <= PI.
Proof.
  intros Hne r a. subst r a. unfold Libm.atan2.
  pose proof PI_RGT_0 as Hpi.
  destruct (Rlt_dec 0 dx) as [Hpos | Hnpos].
  - destruct (atan_ratio dx dy) as [Hc Hs]; [lra | ].
    pose proof (atan_bound (dy / dx)).
    rewrite Rabs_pos_eq in Hc, Hs by lra.
    repeat split; try lra. rewrite Hs. field. lra.
  - destruct (Rlt_dec dx 0) as [Hneg | Hnneg].
    + destruct (atan_ratio dx dy) as [Hc Hs]; [lra | ].
      pose proof (atan_bound (dy / dx)) as Hb.
      rewrite Rabs_left in Hc, Hs by lra.
      assert (Hs' : sqrt (dx * dx + dy * dy) * sin (atan (dy / dx)) = - dy).
      { rewrite Hs. field. lra. }
      destruct (Rle_dec 0 dy) as [Hy | Hy].
      * assert (Hq : dy / dx <= 0).
        { pose proof (Rinv_lt_0_compat dx Hneg). unfold Rdiv. nra. }
        assert (Ha : atan (dy / dx) <= 0).
        { destruct Hq as [Hq | Hq].
          - left. rewrite <- atan_0. now apply atan_increasing.
          - rewrite Hq, atan_0. lra. }
        rewrite neg_cos, neg_sin. repeat split; lra.
      * assert (Hq : 0 < dy / dx).
        { pose proof (Rinv_lt_0_compat dx Hneg). unfold Rdiv. nra. }
        assert (Ha : 0 < atan (dy / dx)).
        { rewrite <- atan_0. now apply atan_increasing. }
        unfold Rminus. rewrite cos_plus, sin_plus, cos_neg, sin_neg.
        rewrite cos_PI, sin_PI. repeat split; try lra; nra.
    + assert (dx = 0) by lra. subst dx.
      assert (Hy0 : dy <> 0) by (intros ->; now apply Hne).
      replace (0 * 0 + dy * dy) with (dy²) by (unfold Rsqr; ring).
      destruct (Rlt_dec 0 dy) as [Hy | Hy].
      * rewrite sqrt_Rsqr by lra. rewrite cos_PI2, sin_PI2.
        repeat split; lra.
      * destruct (Rlt_dec dy 0) as [Hy' | Hy']; [ | lra ].
        rewrite (Rsqr_neg dy), sqrt_Rsqr by lra.
        rewrite cos_neg, sin_neg, cos_PI2, sin_PI2.
        repeat split; lra.
Qed.

End Atan2.

Section Atan2Quadrants.
Local Open Scope R_scope.

Lemma atan_pos (t : R) : 0 < t -> 0 < atan t < PI / 2.
Proof.
  intros Ht. pose proof (atan_bound t) as Hb.
  pose proof (atan_increasing 0 t Ht) as Hi. rewrite atan_0 in Hi. lra.
Qed.

Lemma atan_neg (t : R) : t < 0 -> - PI / 2 < atan t < 0.
Proof.
  intros Ht. pose proof (atan_bound t) as Hb.
  pose proof (atan_increasing t 0 Ht) as Hi. rewrite atan_0 in Hi. lra.
Qed.

Lemma ratio_sign (dx dy : R) :
  dx <> 0 ->
  (0 < dx * dy -> 0 < dy / dx) /\ (dx * dy < 0 -> dy / dx < 0).
Proof.
  intros Hx.
  assert (Hq : dx * dy = (dy / dx) * (dx * dx)) by (field; exact Hx).
  assert (Hsq : 0 < dx * dx) by nra.
  split; intros H; rewrite Hq in H; nra.
Qed.

(** On the four half-axes. *)
Lemma atan2_axes (dx dy : R) :
  (dx = 0 -> 0 < dy -> Libm.atan2 dy dx = PI / 2) /\
  (dx = 0 -> dy < 0 -> Libm.atan2 dy dx = - (PI / 2)) /\
  (dy = 0 -> 0 < dx -> Libm.atan2 dy dx = 0) /\
  (dy = 0 -> dx < 0 -> Libm.atan2 dy dx = PI).
Proof.
  unfold Libm.atan2.
  split; [ | split; [ | split ] ]; intros -> H;
    repeat (destruct (Rlt_dec _ _) as [? | ?]; try lra);
    try (destruct (Rle_dec _ _) as [? | ?]; try lra);
    unfold Rdiv; rewrite Rmult_0_l, atan_0; lra.
Qed.

(** Strictly inside the four quadrants. *)
Lemma atan2_quadrants (dx dy : R) :
  (0 < dx -> 0 < dy -> 0 < Libm.atan2 dy dx < PI / 2) /\
  (dx < 0 -> 0 < dy -> PI / 2 < Libm.atan2 dy dx < PI) /\
  (dx < 0 -> dy < 0 -> - PI < Libm.atan2 dy dx < - (PI / 2)) /\
  (0 < dx -> dy < 0 -> - (PI / 2) < Libm.atan2 dy dx < 0).
Proof.
  unfold Libm.atan2.
  split; [ | split; [ | split ] ]; intros Hx Hy;
    destruct (ratio_sign dx dy) as [Hp Hn]; try lra;
    repeat (destruct (Rlt_dec _ _) as [? | ?]; try lra);
    try (destruct (Rle_dec _ _) as [? | ?]; try lra);
    first [ assert (Hq : 0 < dy / dx) by (apply Hp; nra);
            pose proof (atan_pos _ Hq); lra
          | assert (Hq : dy / dx < 0) by (apply Hn; nra);
            pose proof (atan_neg _ Hq); lra ].
Qed.

End Atan2Quadrants.

(** ** The mouse handlers *)

(** C3.  A mouse move during a drag session only replaces the heading
    angle, by [atan2 (head.y - tail.y) (head.x - tail.x)].  For head and tail
    distinct this is the polar angle of the delta: the hypotenuse times its
    cosine and sine gives back the delta, it lies in (-PI, PI], it is
    PI/2, -PI/2, 0, PI on the four half-axes and strictly inside the right
    quarter turn in each quadrant. *)
Theorem handleMouseMove_heading (map_canvas_ : MapCanvas) (event : Qt.QMouseEvent)
    (p : PosePublisherPlugin) :
  is_mouse_down_ p = true ->
  let head := MapGlCoordToFixedFrame map_canvas_ (Qt.localPos event) in
  let tail := arrow_tail_position_ p in
  head <> tail ->
  let dx := (Qt.x head - Qt.x tail)%R in
  let dy := (Qt.y head - Qt.y tail)%R in
  let a := arrow_angle_ (after (handleMouseMove map_canvas_ event p)) in
  handleMouseMove map_canvas_ event p
    = mkOutcome false [] (set_arrow_angle (Libm.atan2 dy dx) p) /\
  a = Libm.atan2 dy dx /\
  (sqrt (dx * dx + dy * dy) * cos a = dx /\
   sqrt (dx * dx + dy * dy) * sin a = dy /\
   - PI < a <= PI)%R /\
  ((dx = 0 -> 0 < dy -> a = PI / 2) /\
   (dx = 0 -> dy < 0 -> a = - (PI / 2)) /\
   (dy = 0 -> 0 < dx -> a = 0) /\
   (dy = 0 -> dx < 0 -> a = PI))%R /\
  ((0 < dx -> 0 < dy -> 0 < a < PI / 2) /\
   (dx < 0 -> 0 < dy -> PI / 2 < a < PI) /\
   (dx < 0 -> dy < 0 -> - PI < a < - (PI / 2)) /\
   (0 < dx -> dy < 0 -> - (PI / 2) < a < 0))%R.
Proof.
  intros Hdown head tail Hne dx dy a.
  assert (Hrun : handleMouseMove map_canvas_ event p
                 = mkOutcome false [] (set_arrow_angle (Libm.atan2 dy dx) p)).
  { unfold handleMouseMove. rewrite Hdown. reflexivity. }
  assert (Ha : a = Libm.atan2 dy dx).
  { subst a. rewrite Hrun. reflexivity. }
  assert (Hdelta : (dx, dy) <> (0%R, 0%R)).
  { intros Heq. apply Hne. injection Heq as Hx Hy.
    subst dx dy. destruct head as [hx hy], tail as [tx ty]; cbn in *.
    f_equal; lra. }
  split; [exact Hrun | ]. split; [exact Ha | ].
  rewrite Ha.
  split; [exact (atan2_polar dx dy Hdelta) | ].
  split; [exact (atan2_axes dx dy) | exact (atan2_quadrants dx dy)].
Qed.

(** The scenario of the specification: press at (0,0), move straight up to
    (0,5); the heading is PI/2. *)
Lemma handleMouseMove_heading_witness :
  let armed := with_ui (set_checked true) (PosePublisherPlugin_new 0 "map") in
  let pressed := after (handleMousePress canvas_id (left_at 0 0) armed) in
  is_mouse_down_ pressed = true /\
  arrow_angle_ (after (handleMouseMove canvas_id (left_at 0 5) pressed)) = (PI / 2)%R.
Proof.
  intros armed pressed. split; [reflexivity | ].
  assert (Hne : MapGlCoordToFixedFrame canvas_id (Qt.localPos (left_at 0 5))
                <> arrow_tail_position_ pressed).
  { cbn. intros Heq. injection Heq as Hy. lra. }
  destruct (handleMouseMove_heading canvas_id (left_at 0 5) pressed eq_refl Hne)
    as (_ & _ & _ & (Hup & _) & _).
  apply Hup; cbn; lra.
Defined.

(** C4.  A release with no drag session active returns false, publishes
    nothing and leaves the plugin as it was; the same through
    [eventFilter]. *)
Theorem release_without_press_is_noop (map_canvas_ : MapCanvas) (now : Msg.Time)
    (event : Qt.QMouseEvent) (p : PosePublisherPlugin) :
  is_mouse_down_ p = false ->
  handleMouseRelease now event p = mkOutcome false [] p /\
  eventFilter map_canvas_ now (MouseButtonRelease event) p = mkOutcome false [] p.
Proof.
  intros Hup. cbn [eventFilter]. unfold handleMouseRelease.
  rewrite Hup. split; reflexivity.
Qed.

Lemma release_without_press_is_noop_witness :
  let p := with_ui (set_checked true) (PosePublisherPlugin_new 0 "map") in
  is_mouse_down_ p = false /\
  handleMouseRelease t0 (left_at 1 2) p = mkOutcome false [] p.
Proof.
  intros p. split; [reflexivity | ].
  exact (proj1 (release_without_press_is_noop canvas_id t0 (left_at 1 2) p eq_refl)).
Defined.

(** What [handleMouseRelease] does when a session is active and the toggle
    is checked, written out. *)
Lemma handleMouseRelease_armed (now : Msg.Time) (event : Qt.QMouseEvent)
    (p : PosePublisherPlugin) :
  is_mouse_down_ p = true ->
  pushButtonPose_checked (ui_ p) = true ->
  handleMouseRelease now event p
  = mkOutcome true
      [Publish (pose_pub_ p)
         (Msg.mkPoseWithCovarianceStamped
            (Msg.mkHeader (target_frame_ p) now)
            (Msg.mkPoseWithCovariance
               (Msg.mkPose
                  (Msg.mkPoint (Qt.x (arrow_tail_position_ p))
                               (Qt.y (arrow_tail_position_ p)) 0)
                  (yaw_quaternion (arrow_angle_ p)))
               Msg.default_covariance))]
      (PrintInfo (published_status p)
         (with_ui (set_checked false) (set_mouse_down false p))).
Proof.
  intros Hdown Harmed. unfold handleMouseRelease.
  rewrite Hdown. cbn [negb set_mouse_down ui_]. rewrite Harmed.
  cbn [negb]. rewrite quaternionTFToMsg_yaw.
  destruct p as [u d m tl a pb tg]. destruct u as [ck en tp st cb].
  reflexivity.
Qed.

(** C5.  A release while a session is active and the toggle is checked
    leaves the toggle unchecked, whatever the topic text and whatever the
    publisher is bound to. *)
Theorem release_while_armed_disarms (now : Msg.Time) (event : Qt.QMouseEvent)
    (p : PosePublisherPlugin) :
  is_mouse_down_ p = true ->
  pushButtonPose_checked (ui_ p) = true ->
  pushButtonPose_checked (ui_ (after (handleMouseRelease now event p))) = false.
Proof.
  intros Hdown Harmed.
  rewrite (handleMouseRelease_armed now event p Hdown Harmed).
  reflexivity.
Qed.

(** With the topic text empty and no publisher bound. *)
Lemma release_while_armed_disarms_witness :
  let armed := with_ui (set_checked true) (PosePublisherPlugin_new 0 "map") in
  let p := after (handleMousePress canvas_id (left_at 1 2) armed) in
  topic (ui_ p) = EmptyString /\ pose_pub_ p = None /\
  pushButtonPose_checked (ui_ (after (handleMouseRelease t0 (left_at 1 2) p))) = false.
Proof.
  intros armed p. split; [reflexivity | split; [reflexivity | ] ].
  exact (release_while_armed_disarms t0 (left_at 1 2) p eq_refl eq_refl).
Defined.

Lemma release_clears_drag_session_aux (now : Msg.Time) (event : Qt.QMouseEvent)
    (p : PosePublisherPlugin) :
  is_mouse_down_ (after (handleMouseRelease now event p)) = false /\
  (is_mouse_down_ p = true ->
   pushButtonPose_checked (ui_ p) = false ->
   handleMouseRelease now event p = mkOutcome false [] (set_mouse_down false p)).
Proof.
  split.
  - unfold handleMouseRelease.
    destruct (is_mouse_down_ p) eqn:Hdown; cbn [negb]; [ | exact Hdown ].
    cbn [set_mouse_down ui_].
    destruct (pushButtonPose_checked (ui_ p)); reflexivity.
  - intros Hdown Hoff. unfold handleMouseRelease.
    rewrite Hdown. cbn [negb set_mouse_down ui_]. rewrite Hoff. reflexivity.
Qed.

(** C10.  After any release the mouse-down flag is false; a release that
    finds a session active but the toggle unchecked only clears the flag:
    it publishes nothing and returns false. *)
Theorem release_clears_drag_session (now : Msg.Time) (event : Qt.QMouseEvent)
    (p : PosePublisherPlugin) :
  is_mouse_down_ (after (handleMouseRelease now event p)) = false /\
  (is_mouse_down_ p = true ->
   pushButtonPose_checked (ui_ p) = false ->
   handleMouseRelease now event p = mkOutcome false [] (set_mouse_down false p)).
Proof. exact (release_clears_drag_session_aux now event p). Qed.

(** The toggle is switched off between press and release. *)
Lemma release_clears_drag_session_witness :
  let armed := with_ui (set_checked true) (PosePublisherPlugin_new 0 "map") in
  let pressed := after (handleMousePress canvas_id (left_at 1 2) armed) in
  let p := after (step (PoseButtonSet false) pressed) in
  is_mouse_down_ p = true /\
  handleMouseRelease t0 (left_at 1 2) p = mkOutcome false [] (set_mouse_down false p).
Proof.
  intros armed pressed p. split; [reflexivity | ].
  exact (proj2 (release_clears_drag_session t0 (left_at 1 2) p) eq_refl eq_refl).
Defined.

(** Neither field of the drag session is touched by the refresh. *)
Ltac add_frames_field :=
  unfold add_frames;
  let frames := fresh "frames" in
  let IH := fresh "IH" in
  intros frames; induction frames as [ | ? ? IH]; intros ?; cbn [fold_left];
  [ reflexivity | rewrite IH; reflexivity ].

Lemma add_frames_is_mouse_down :
  forall frames p, is_mouse_down_ (add_frames frames p) = is_mouse_down_ p.
Proof. add_frames_field. Qed.

Lemma add_frames_arrow_angle :
  forall frames p, arrow_angle_ (add_frames frames p) = arrow_angle_ p.
Proof. add_frames_field. Qed.

Ltac frames_field :=
  unfold updateFrames;
  repeat match goal with
         | |- context [if ?b then _ else _] => destruct b
         end;
  cbn [PrintInfo with_ui is_mouse_down_ arrow_angle_];
  rewrite ?add_frames_is_mouse_down, ?add_frames_arrow_angle; reflexivity.

Lemma updateFrames_is_mouse_down (fs : list string) (w : bool)
    (p : PosePublisherPlugin) :
  is_mouse_down_ (updateFrames fs w p) = is_mouse_down_ p.
Proof. frames_field. Qed.

Lemma updateFrames_arrow_angle (fs : list string) (w : bool)
    (p : PosePublisherPlugin) :
  arrow_angle_ (updateFrames fs w p) = arrow_angle_ p.
Proof. frames_field. Qed.

(** Any input but a mouse move keeps [angle_untouched], and under it
    publishes yaw 0 only. *)
Lemma step_angle_untouched (i : Input) (p : PosePublisherPlugin) :
  is_move i = false ->
  angle_untouched p ->
  angle_untouched (after (step i p)) /\ all_yaw_zero (effects (step i p)).
Proof.
  unfold angle_untouched, all_yaw_zero. intros Hmove Hinv.
  destruct i as [c now e | t | b | ix | | fs w | tk fk]; cbn [step after effects].
  - destruct e as [e | e | e | ]; cbn [eventFilter].
    + unfold handleMousePress.
      destruct (pushButtonPose_checked (ui_ p)); cbn [negb after effects];
        [ | split; [exact Hinv | intros ? ? []] ].
      destruct (Qt.button e); cbn [after effects];
        (split; [ try exact Hinv | intros ? ? [] ]).
      reflexivity.
    + destruct (is_mouse_down_ p) eqn:Hdown.
      * destruct (pushButtonPose_checked (ui_ p)) eqn:Harmed.
        -- rewrite (handleMouseRelease_armed now e p Hdown Harmed).
           cbn [after effects]. split; [discriminate | ].
           intros tgt m [Heq | []]. injection Heq as _ <-. cbn.
           now rewrite (Hinv eq_refl).
        -- rewrite (proj2 (release_clears_drag_session_aux now e p) Hdown Harmed).
           cbn [after effects]. split; [discriminate | intros ? ? []].
      * unfold handleMouseRelease. rewrite Hdown. cbn [negb after effects].
        split; [congruence | intros ? ? []].
    + discriminate.
    + cbn [after effects]. split; [exact Hinv | intros ? ? []].
  - split; [ | intros ? ? []].
    unfold topicChanged. destruct (negb _); exact Hinv.
  - split; [exact Hinv | intros ? ? []].
  - split; [exact Hinv | intros ? ? []].
  - split; [exact Hinv | intros ? ? []].
  - split; [ | intros ? ? []].
    now rewrite updateFrames_is_mouse_down, updateFrames_arrow_angle.
  - split; [ | intros ? ? []].
    unfold LoadConfig, topicChanged.
    destruct tk as [t | ], fk as [f | ]; try destruct (negb _); exact Hinv.
Qed.

Lemma run_angle_untouched (tr : list Input) (p : PosePublisherPlugin) :
  forallb (fun i => negb (is_move i)) tr = true ->
  angle_untouched p ->
  all_yaw_zero (fst (run tr p)).
Proof.
  revert p. induction tr as [ | i tr IH]; intros p Hno Hinv.
  - intros ? ? [].
  - cbn [forallb] in Hno. apply andb_true_iff in Hno as [Hi Hrest].
    apply negb_true_iff in Hi.
    destruct (step_angle_untouched i p Hi Hinv) as [Hinv' Hzero].
    specialize (IH (after (step i p)) Hrest Hinv').
    cbn [run]. destruct (run tr (after (step i p))) as [es p'].
    cbn [fst] in *. intros tgt m Hin.
    apply in_app_or in Hin as [Hin | Hin]; eauto.
Qed.




(** X15.  Without a mouse move no heading other than 0 is ever
    published: along any trace of inputs from the constructor on that
    contains no mouse move, every pose published has the orientation of
    yaw 0, whatever presses, releases, toggles, edits and timer ticks the
    trace is made of. *)
Theorem no_move_no_heading (tr : list Input) (angle0 : R) (target : string) :
  forallb (fun i => negb (is_move i)) tr = true ->
  all_yaw_zero (fst (run tr (PosePublisherPlugin_new angle0 target))).
Proof.
  intros Hno. apply run_angle_untouched; [exact Hno | ].
  intros Hdown. discriminate.
Qed.

(** A session with a right-button press in the middle and two releases. *)
Lemma no_move_no_heading_witness :
  let right := Qt.mkQMouseEvent Qt.RightButton (Qt.mkQPointF 3 4) in
  let tr := [PoseButtonSet true;
             CanvasEvent canvas_id t0 (MouseButtonPress (left_at 1 2));
             CanvasEvent canvas_id t0 (MouseButtonPress right);
             CanvasEvent canvas_id t0 (MouseButtonRelease right);
             CanvasEvent canvas_id t0 (MouseButtonRelease (left_at 1 2))] in
  exists m,
    fst (run tr (PosePublisherPlugin_new 1 "map")) = [Publish None m] /\
    Msg.orientation (Msg.pose (Msg.pose_cov m)) = yaw_quaternion 0.
Proof.
  intros right tr.
  pose proof (no_move_no_heading tr 1 "map" eq_refl) as Hzero.
  eexists. split; [reflexivity | ].
  apply (Hzero None). cbn. left. reflexivity.
Defined.

(** C2 (as amended).  A release while a session is active and the toggle is
    checked returns true and makes exactly one publish call.  The pose has
    the plugin's target frame (the host's fixed frame) as header frame id,
    the time of the call as stamp, the tail point with z = 0 as position,
    the default covariance, and as orientation the quaternion
    (0, 0, sin(angle/2), cos(angle/2)) of the final angle, of unit length.
    The entry selected in the output-frame box plays no part. *)
Theorem release_publishes_pose (now : Msg.Time) (event : Qt.QMouseEvent)
    (p : PosePublisherPlugin) :
  is_mouse_down_ p = true ->
  pushButtonPose_checked (ui_ p) = true ->
  let o := handleMouseRelease now event p in
  let q := yaw_quaternion (arrow_angle_ p) in
  consumed o = true /\
  effects o =
    [Publish (pose_pub_ p)
       {| Msg.header := {| Msg.frame_id := target_frame_ p; Msg.stamp := now |};
          Msg.pose_cov :=
            {| Msg.pose :=
                 {| Msg.position :=
                      Msg.mkPoint (Qt.x (arrow_tail_position_ p))
                                  (Qt.y (arrow_tail_position_ p)) 0;
                    Msg.orientation := q |};
               Msg.covariance := Msg.default_covariance |} |}] /\
  (Msg.qx q * Msg.qx q + Msg.qy q * Msg.qy q
   + Msg.qz q * Msg.qz q + Msg.qw q * Msg.qw q = 1)%R /\
  forall cb,
    effects (handleMouseRelease now event (with_ui (set_outputframe cb) p))
    = effects o.
Proof.
  intros Hdown Harmed o q. subst o.
  rewrite (handleMouseRelease_armed now event p Hdown Harmed).
  split; [reflexivity | ]. split; [reflexivity | ]. split.
  - subst q. cbn. pose proof (sin2_cos2 (arrow_angle_ p / 2)) as H.
    unfold Rsqr in H. lra.
  - intros cb. rewrite handleMouseRelease_armed by (cbn; assumption).
    reflexivity.
Qed.

(** The first scenario of the specification: press at (1, 2), move to
    (2, 2), release; the topic is "/pose_out" and the fixed frame "map". *)
Lemma release_publishes_pose_witness :
  let tr := [TopicEdited "/pose_out"; PoseButtonSet true;
             CanvasEvent canvas_id t0 (MouseButtonPress (left_at 1 2));
             CanvasEvent canvas_id t0 (MouseMove (left_at 2 2))] in
  let p := snd (run tr (PosePublisherPlugin_new 1 "map")) in
  exists m,
    effects (handleMouseRelease t0 (left_at 2 2) p) = [Publish (Some "/pose_out"%string) m] /\
    Msg.frame_id (Msg.header m) = "map"%string /\
    Msg.position (Msg.pose (Msg.pose_cov m)) = Msg.mkPoint 1 2 0.
Proof.
  intros tr p.
  destruct (release_publishes_pose t0 (left_at 2 2) p eq_refl eq_refl)
    as (_ & Heff & _).
  eexists. split; [exact Heff | split; reflexivity].
Defined.

(** C2 as stated fails: with the fixed frame "map" and "odom" selected in
    the output-frame box, the published header carries "map". *)
Lemma release_frame_id_is_not_selected_output :
  let tr := [FrameTimer ["map"; "odom"]%string false; FrameChosen 1;
             PoseButtonSet true;
             CanvasEvent canvas_id t0 (MouseButtonPress (left_at 1 2))] in
  let p := snd (run tr (PosePublisherPlugin_new 0 "map")) in
  is_mouse_down_ p = true /\
  pushButtonPose_checked (ui_ p) = true /\
  Qt.currentText (outputframe (ui_ p)) = "odom"%string /\
  exists tgt m,
    effects (handleMouseRelease t0 (left_at 1 2) p) = [Publish tgt m] /\
    Msg.frame_id (Msg.header m) = "map"%string /\
    Msg.frame_id (Msg.header m) <> Qt.currentText (outputframe (ui_ p)).
Proof.
  intros tr p.
  split; [reflexivity | ]. split; [reflexivity | ]. split; [reflexivity | ].
  do 2 eexists. split; [reflexivity | ]. split; [reflexivity | ].
  cbn. discriminate.
Qed.

(** ** The publisher binding *)

Lemma add_frames_pose_pub (frames : list string) (p : PosePublisherPlugin) :
  pose_pub_ (add_frames frames p) = pose_pub_ p.
Proof.
  unfold add_frames. revert p.
  induction frames as [ | f rest IH]; intros p; cbn [fold_left]; [reflexivity | ].
  rewrite IH. reflexivity.
Qed.

Lemma updateFrames_pose_pub (fs : list string) (w : bool) (p : PosePublisherPlugin) :
  pose_pub_ (updateFrames fs w p) = pose_pub_ p.
Proof.
  unfold updateFrames.
  repeat match goal with
         | |- context [if ?b then _ else _] => destruct b
         end;
    cbn [PrintInfo with_ui pose_pub_];
    rewrite ?add_frames_pose_pub; reflexivity.
Qed.

Lemma topicChanged_pose_pub (t : string) (p : PosePublisherPlugin) :
  pose_pub_ (topicChanged t p)
  = if String.eqb t EmptyString then pose_pub_ p else Some t.
Proof.
  unfold topicChanged. destruct (String.eqb t EmptyString); reflexivity.
Qed.

(** Only a call of [topicChanged] with a non-empty text rebinds. *)
Lemma step_pose_pub (i : Input) (p : PosePublisherPlugin) :
  pose_pub_ (after (step i p))
  = match topic_text_of i with
    | Some t => if String.eqb t EmptyString then pose_pub_ p else Some t
    | None => pose_pub_ p
    end.
Proof.
  destruct i as [c now e | t | b | ix | | fs w | tk fk]; cbn [step after topic_text_of].
  - destruct e as [e | e | e | ]; cbn [eventFilter].
    + unfold handleMousePress.
      destruct (pushButtonPose_checked (ui_ p)); [ | reflexivity ].
      destruct (Qt.button e); reflexivity.
    + unfold handleMouseRelease.
      destruct (is_mouse_down_ p); [ | reflexivity ].
      cbn [negb set_mouse_down ui_].
      destruct (pushButtonPose_checked (ui_ p)); reflexivity.
    + unfold handleMouseMove. destruct (is_mouse_down_ p); reflexivity.
    + reflexivity.
  - now rewrite topicChanged_pose_pub.
  - reflexivity.
  - reflexivity.
  - reflexivity.
  - apply updateFrames_pose_pub.
  - unfold LoadConfig.
    destruct tk as [t | ], fk as [f | ]; cbn [with_ui pose_pub_ ui_ set_topic topic];
      rewrite ?topicChanged_pose_pub; reflexivity.
Qed.

Lemma run_pose_pub (tr : list Input) (p : PosePublisherPlugin) :
  pose_pub_ (snd (run tr p)) = last_nonempty (topic_edits tr) (pose_pub_ p).
Proof.
  revert p. induction tr as [ | i tr IH]; intros p; [reflexivity | ].
  cbn [run topic_edits].
  destruct (run tr (after (step i p))) as [es p'] eqn:Hrun.
  cbn [snd]. change p' with (snd (es, p')). rewrite <- Hrun, IH, step_pose_pub.
  destruct (topic_text_of i); reflexivity.
Qed.

Lemma last_nonempty_some (texts : list string) (t : string) :
  exists t', last_nonempty texts (Some t) = Some t'.
Proof.
  revert t. induction texts as [ | u rest IH]; intros t; cbn.
  - now exists t.
  - destruct (String.eqb u EmptyString); apply IH.
Qed.

Lemma last_nonempty_none (texts : list string) :
  last_nonempty texts None = None <-> Forall (fun t => t = EmptyString) texts.
Proof.
  induction texts as [ | u rest IH]; cbn.
  - split; [constructor | reflexivity].
  - destruct (String.eqb u EmptyString) eqn:Hu.
    + apply String.eqb_eq in Hu. rewrite IH. split.
      * intros H. now constructor.
      * intros H. now inversion H.
    + apply String.eqb_neq in Hu. split.
      * intros H. destruct (last_nonempty_some rest u) as [t' Ht'].
        congruence.
      * intros H. inversion H. contradiction.
Qed.

(** C9 (as amended).  From the constructor on, after any trace of inputs the
    publisher is bound to the last non-empty text that was passed to
    [topicChanged]; an empty text leaves the binding as it was.  A release
    while a session is active and the toggle is checked hands its pose to
    that binding.  No target is bound exactly when every topic text so far
    was empty, and then the publish call reaches no topic. *)
Theorem release_target_is_last_nonempty_topic (tr : list Input) (angle0 : R)
    (target : string) (now : Msg.Time) (event : Qt.QMouseEvent) :
  let p := snd (run tr (PosePublisherPlugin_new angle0 target)) in
  let bound := last_nonempty (topic_edits tr) None in
  pose_pub_ p = bound /\
  (bound = None <-> Forall (fun t => t = EmptyString) (topic_edits tr)) /\
  (is_mouse_down_ p = true ->
   pushButtonPose_checked (ui_ p) = true ->
   exists m,
     effects (handleMouseRelease now event p) = [Publish bound m] /\
     (Forall (fun t => t = EmptyString) (topic_edits tr) ->
      map delivered (effects (handleMouseRelease now event p)) = [None])).
Proof.
  intros p bound.
  assert (Hbound : pose_pub_ p = bound).
  { subst p bound. now rewrite run_pose_pub. }
  split; [exact Hbound | ].
  split; [apply last_nonempty_none | ].
  intros Hdown Harmed.
  rewrite (handleMouseRelease_armed now event p Hdown Harmed), Hbound.
  eexists. split; [reflexivity | ].
  intros Hall. apply last_nonempty_none in Hall. fold bound in Hall.
  rewrite Hall. reflexivity.
Qed.

(** No topic was ever entered: the release publishes into the void. *)
Lemma release_target_is_last_nonempty_topic_witness :
  let tr := [PoseButtonSet true;
             CanvasEvent canvas_id t0 (MouseButtonPress (left_at 1 2))] in
  let p := snd (run tr (PosePublisherPlugin_new 0 "map")) in
  topic (ui_ p) = EmptyString /\
  map delivered (effects (handleMouseRelease t0 (left_at 1 2) p)) = [None].
Proof.
  intros tr p. split; [reflexivity | ].
  destruct (release_target_is_last_nonempty_topic tr 0 "map" t0 (left_at 1 2))
    as (_ & _ & Hrel).
  destruct (Hrel eq_refl eq_refl) as (m & _ & Hnone).
  apply Hnone. constructor.
Defined.

(** C9 as stated fails: the topic is set to "/pose_out" and then cleared;
    the topic text is empty at the release, yet the pose is delivered on
    "/pose_out". *)
Lemma release_after_topic_cleared_still_publishes :
  let tr := [TopicEdited "/pose_out"; TopicEdited EmptyString;
             PoseButtonSet true;
             CanvasEvent canvas_id t0 (MouseButtonPress (left_at 1 2))] in
  let p := snd (run tr (PosePublisherPlugin_new 0 "map")) in
  topic (ui_ p) = EmptyString /\
  is_mouse_down_ p = true /\
  pushButtonPose_checked (ui_ p) = true /\
  exists m,
    map delivered (effects (handleMouseRelease t0 (left_at 1 2) p))
    = [Some ("/pose_out"%string, m)].
Proof.
  intros tr p.
  split; [reflexivity | ]. split; [reflexivity | ]. split; [reflexivity | ].
  eexists. reflexivity.
Qed.

(** ** The frame-list refresh *)

Section FrameBox.

Lemma PrintInfo_outputframe (m : string) (p : PosePublisherPlugin) :
  outputframe (ui_ (PrintInfo m p)) = outputframe (ui_ p).
Proof. reflexivity. Qed.

Lemma add_frames_outputframe (frames : list string) (p : PosePublisherPlugin) :
  outputframe (ui_ (add_frames frames p))
  = fold_left (fun cb f => Qt.addItem f cb) frames (outputframe (ui_ p)).
Proof.
  unfold add_frames. revert p.
  induction frames as [ | f rest IH]; intros p; cbn [fold_left]; [reflexivity | ].
  rewrite IH. reflexivity.
Qed.

Lemma fold_addItem (frames : list string) (cb : Qt.QComboBox) :
  fold_left (fun cb f => Qt.addItem f cb) frames cb
  = Qt.mkQComboBox (Qt.items cb ++ frames)
      (match Qt.items cb, frames with
       | [], _ :: _ => 0
       | _, _ => Qt.currentIndex cb
       end).
Proof.
  revert cb. induction frames as [ | f rest IH]; intros [its ix]; cbn [fold_left].
  - cbn. rewrite app_nil_r. now destruct its.
  - rewrite IH. cbn. rewrite <- app_assoc. cbn.
    destruct its; cbn; [ | reflexivity ]. now destruct rest.
Qed.

Lemma refill_after_clear (frames : list string) (cb : Qt.QComboBox) :
  fold_left (fun cb f => Qt.addItem f cb) frames (Qt.clear cb)
  = Qt.mkQComboBox frames (match frames with [] => -1 | _ :: _ => 0 end).
Proof. rewrite fold_addItem. cbn. now destruct frames. Qed.

Lemma findText_from_absent (text : string) (l : list string) (i : Z) :
  ~ In text l -> Qt.findText_from text l i = -1.
Proof.
  revert i. induction l as [ | t l IH]; intros i Hnin; cbn; [reflexivity | ].
  destruct (String.eqb t text) eqn:Heq.
  - apply String.eqb_eq in Heq. subst. exfalso. apply Hnin. now left.
  - apply IH. intros Hin. apply Hnin. now right.
Qed.

(** When [text] occurs, [findText] returns its first position. *)
Lemma findText_from_present (text : string) (l : list string) (i : Z) :
  In text l ->
  let r := Qt.findText_from text l i in
  i <= r < i + Z.of_nat (List.length l) /\
  nth (Z.to_nat (r - i)) l EmptyString = text /\
  forall k, (k < Z.to_nat (r - i))%nat -> nth k l EmptyString <> text.
Proof.
  revert i. induction l as [ | t l IH]; intros i Hin; [contradiction | ].
  cbn [Qt.findText_from]. destruct (String.eqb t text) eqn:Heq.
  - apply String.eqb_eq in Heq. subst t. cbn [List.length].
    replace (i - i) with 0 by lia. cbn. repeat split; try lia.
  - apply String.eqb_neq in Heq.
    destruct Hin as [Hhd | Htl]; [contradiction | ].
    destruct (IH (i + 1) Htl) as (Hr & Hnth & Hfirst).
    cbn zeta. cbn [List.length].
    set (r := Qt.findText_from text l (i + 1)) in *.
    replace (Z.to_nat (r - i)) with (S (Z.to_nat (r - (i + 1)))) by lia.
    repeat split; try lia.
    + exact Hnth.
    + intros [ | k] Hk; cbn; [exact Heq | ]. apply Hfirst. lia.
Qed.

Lemma findText_from_appended (text : string) (l : list string) (i : Z) :
  ~ In text l ->
  Qt.findText_from text (l ++ [text]) i = i + Z.of_nat (List.length l).
Proof.
  revert i. induction l as [ | t l IH]; intros i Hnin; cbn.
  - rewrite String.eqb_refl. lia.
  - destruct (String.eqb t text) eqn:Heq.
    + apply String.eqb_eq in Heq. subst. exfalso. apply Hnin. now left.
    + rewrite IH by (intros Hin; apply Hnin; now right). lia.
Qed.

(** The box after a refresh tick: untouched when the counts agree,
    rebuilt around the previous selection otherwise. *)
Lemma updateFrames_outputframe (fs : list string) (w : bool)
    (p : PosePublisherPlugin) :
  outputframe (ui_ (updateFrames fs w p))
  = if Qt.count (outputframe (ui_ p)) =? Z.of_nat (List.length (candidates fs w))
    then outputframe (ui_ p)
    else rebuilt (candidates fs w) (Qt.currentText (outputframe (ui_ p))).
Proof.
  unfold updateFrames. fold (candidates fs w).
  set (F := candidates fs w).
  cbn [PrintInfo with_ui ui_ set_status outputframe].
  set (cb := outputframe (ui_ p)).
  assert (Hc : (0 <=? Qt.count cb) = true) by (unfold Qt.count; lia).
  rewrite Hc. cbn [andb].
  destruct (Qt.count cb =? Z.of_nat (List.length F)) eqn:Hcount.
  - destruct (negb (frames_changed F cb 0 false)); reflexivity.
  - set (cur := Qt.currentText cb). unfold rebuilt.
    destruct (String.eqb cur EmptyString) eqn:Hcur; cbn [negb].
    + rewrite PrintInfo_outputframe, add_frames_outputframe.
      cbn [with_ui ui_ set_outputframe outputframe].
      apply refill_after_clear.
    + rewrite PrintInfo_outputframe.
      set (q := add_frames F _).
      assert (Hq : outputframe (ui_ q)
                   = Qt.mkQComboBox F (match F with [] => -1 | _ :: _ => 0 end)).
      { subst q. rewrite add_frames_outputframe.
        cbn [with_ui ui_ set_outputframe outputframe PrintInfo set_status].
        apply refill_after_clear. }
      rewrite Hq. unfold Qt.findText. cbn [Qt.items].
      destruct (in_dec string_dec cur F) as [Hin | Hnin].
      * destruct (findText_from_present cur F 0 Hin) as (Hr & _).
        set (r := Qt.findText_from cur F 0) in *.
        replace (r <? 0) with false by lia.
        cbv iota. cbn [with_ui ui_ set_outputframe outputframe].
        rewrite Hq. cbn [Qt.items]. fold r.
        unfold Qt.setCurrentIndex, Qt.count. cbn [Qt.items].
        replace ((0 <=? r) && (r <? Z.of_nat (List.length F))) with true
          by lia.
        reflexivity.
      * rewrite (findText_from_absent cur F 0 Hnin).
        change (-1 <? 0) with true. cbv iota.
        cbn [with_ui ui_ set_outputframe outputframe].
        rewrite Hq.
        unfold Qt.addItem. cbn [Qt.items Qt.currentIndex].
        rewrite findText_from_appended by exact Hnin.
        unfold Qt.setCurrentIndex, Qt.count. cbn [Qt.items].
        rewrite length_app. cbn [List.length].
        replace ((0 <=? 0 + Z.of_nat (List.length F))
                 && (0 + Z.of_nat (List.length F)
                     <? Z.of_nat (List.length F + 1))) with true by lia.
        reflexivity.
Qed.

End FrameBox.

Lemma currentText_rebuilt (frames : list string) (cur : string) :
  cur <> EmptyString -> Qt.currentText (rebuilt frames cur) = cur.
Proof.
  intros Hcur. unfold rebuilt.
  apply String.eqb_neq in Hcur. rewrite Hcur.
  destruct (in_dec string_dec cur frames) as [Hin | Hnin];
    unfold Qt.currentText, Qt.itemText, Qt.count; cbn [Qt.items Qt.currentIndex].
  - destruct (findText_from_present cur frames 0 Hin) as (Hr & Hnth & _).
    set (r := Qt.findText_from cur frames 0) in *.
    replace ((0 <=? r) && (r <? Z.of_nat (List.length frames))) with true by lia.
    now rewrite Z.sub_0_r in Hnth.
  - rewrite length_app. cbn [List.length].
    replace ((0 <=? Z.of_nat (List.length frames))
             && (Z.of_nat (List.length frames)
                 <? Z.of_nat (List.length frames + 1))) with true by lia.
    rewrite Nat2Z.id. apply nth_middle.
Qed.

(** C1.  The box shows ["map"] and the candidates are ["odom"]: the counts
    agree, the comparison loop finds a change, and yet the refresh returns
    with the box untouched, because the [return] follows the
    [if (!changed)] instead of being governed by it. *)
Theorem updateFrames_same_count_skips_rebuild :
  let p := after (step (FrameTimer ["map"%string] false)
                       (PosePublisherPlugin_new 0 "map")) in
  let shown := outputframe (ui_ p) in
  Qt.items shown = ["map"%string] /\
  frames_changed (candidates ["odom"%string] false) shown 0 false = true /\
  outputframe (ui_ (updateFrames ["odom"%string] false p)) = shown /\
  Qt.items (outputframe (ui_ (updateFrames ["odom"%string] false p)))
  <> candidates ["odom"%string] false.
Proof.
  intros p shown. repeat split; try reflexivity.
  cbn. discriminate.
Qed.

(** C7.  A second refresh with the same answer from the transform
    collaborator leaves the box (its items and its current index, hence
    its current text) as the first refresh left it. *)
Theorem updateFrames_idempotent (fs : list string) (w : bool)
    (p : PosePublisherPlugin) :
  let p1 := updateFrames fs w p in
  let p2 := updateFrames fs w p1 in
  outputframe (ui_ p2) = outputframe (ui_ p1) /\
  Qt.items (outputframe (ui_ p2)) = Qt.items (outputframe (ui_ p1)) /\
  Qt.currentText (outputframe (ui_ p2)) = Qt.currentText (outputframe (ui_ p1)).
Proof.
  intros p1 p2.
  assert (Heq : outputframe (ui_ p2) = outputframe (ui_ p1)).
  { subst p2. rewrite updateFrames_outputframe.
    destruct (Qt.count (outputframe (ui_ p1))
              =? Z.of_nat (List.length (candidates fs w))) eqn:Hsame;
      [reflexivity | ].
    subst p1. rewrite updateFrames_outputframe in Hsame |- *.
    set (F := candidates fs w) in *. set (cb := outputframe (ui_ p)) in *.
    destruct (Qt.count cb =? Z.of_nat (List.length F)) eqn:Hfirst;
      [congruence | ].
    set (cur := Qt.currentText cb) in *.
    destruct (String.eqb cur EmptyString) eqn:Hcur.
    - exfalso. unfold rebuilt in Hsame. rewrite Hcur in Hsame.
      unfold Qt.count in Hsame. cbn [Qt.items] in Hsame. lia.
    - apply String.eqb_neq in Hcur.
      now rewrite currentText_rebuilt. }
  rewrite Heq. repeat split.
Qed.

(** C8.  On a rebuild (the counts differ) with a non-empty previous
    selection: if the name is not among the candidates it is appended after
    them and is the current entry; if it is among them the list is exactly
    the candidates and the current entry is its first occurrence.  Either
    way the current text is the previous selection. *)
Theorem updateFrames_keeps_previous_selection (fs : list string) (w : bool)
    (p : PosePublisherPlugin) :
  let F := candidates fs w in
  let cur := Qt.currentText (outputframe (ui_ p)) in
  let cb' := outputframe (ui_ (updateFrames fs w p)) in
  Qt.count (outputframe (ui_ p)) <> Z.of_nat (List.length F) ->
  cur <> EmptyString ->
  Qt.currentText cb' = cur /\
  (~ In cur F ->
   Qt.items cb' = (F ++ [cur])%list /\
   Qt.currentIndex cb' = Z.of_nat (List.length F)) /\
  (In cur F ->
   Qt.items cb' = F /\
   0 <= Qt.currentIndex cb' < Z.of_nat (List.length F) /\
   nth (Z.to_nat (Qt.currentIndex cb')) F EmptyString = cur /\
   forall k, (k < Z.to_nat (Qt.currentIndex cb'))%nat -> nth k F EmptyString <> cur).
Proof.
  intros F cur cb' Hcount Hcur.
  assert (Hcb : cb' = rebuilt F cur).
  { subst cb'. rewrite updateFrames_outputframe. fold F.
    replace (Qt.count (outputframe (ui_ p)) =? Z.of_nat (List.length F))
      with false by lia.
    reflexivity. }
  rewrite Hcb. split; [now apply currentText_rebuilt | ].
  unfold rebuilt. apply String.eqb_neq in Hcur. rewrite Hcur.
  destruct (in_dec string_dec cur F) as [Hin | Hnin];
    (split; [intros Hout | intros Hin']); try contradiction;
    cbn [Qt.items Qt.currentIndex].
  - destruct (findText_from_present cur F 0 Hin) as (Hr & Hnth & Hfirst).
    rewrite Z.sub_0_r in Hnth, Hfirst.
    repeat split; try lia; assumption.
  - split; reflexivity.
Qed.

(** "map" was selected and the transform collaborator no longer reports
    it; then "odom" was selected and is still reported. *)
Lemma updateFrames_keeps_previous_selection_witness :
  let p := with_ui (set_outputframe (Qt.mkQComboBox ["map"%string] 0))
                   (PosePublisherPlugin_new 0 "map") in
  let gone := outputframe (ui_ (updateFrames ["odom"; "base"]%string false p)) in
  let q := with_ui (set_outputframe (Qt.mkQComboBox ["odom"%string] 0))
                   (PosePublisherPlugin_new 0 "map") in
  let kept := outputframe (ui_ (updateFrames ["base"; "odom"]%string false q)) in
  (Qt.items gone = ["odom"; "base"; "map"]%string /\ Qt.currentIndex gone = 2) /\
  (Qt.items kept = ["base"; "odom"]%string /\ Qt.currentText kept = "odom"%string).
Proof.
  intros p gone q kept. split.
  - assert (Hcount : Qt.count (outputframe (ui_ p))
                     <> Z.of_nat (List.length (candidates ["odom"; "base"]%string false)))
      by (cbn; lia).
    assert (Hcur : Qt.currentText (outputframe (ui_ p)) <> EmptyString)
      by (cbn; discriminate).
    destruct (updateFrames_keeps_previous_selection _ _ p Hcount Hcur)
      as (_ & Habs & _).
    apply Habs. cbn. intros [H | [H | []]]; discriminate.
  - assert (Hcount : Qt.count (outputframe (ui_ q))
                     <> Z.of_nat (List.length (candidates ["base"; "odom"]%string false)))
      by (cbn; lia).
    assert (Hcur : Qt.currentText (outputframe (ui_ q)) <> EmptyString)
      by (cbn; discriminate).
    destruct (updateFrames_keeps_previous_selection _ _ q Hcount Hcur)
      as (Htext & _ & Hpres).
    split; [ | exact Htext ].
    apply Hpres. cbn. auto.
Defined.

(** ** What the refresh and the timer leave alone *)

Lemma same_but_status_and_box_refl (p : PosePublisherPlugin) :
  same_but_status_and_box p p.
Proof.
  exists (status (ui_ p)), (outputframe (ui_ p)).
  destruct p as [u d m tl a pb tg]. destruct u as [ck en tp st cb].
  reflexivity.
Qed.

Lemma same_but_status_and_box_trans (p q r : PosePublisherPlugin) :
  same_but_status_and_box p q -> same_but_status_and_box q r ->
  same_but_status_and_box p r.
Proof.
  intros (st1 & cb1 & ->) (st2 & cb2 & ->). exists st2, cb2. reflexivity.
Qed.

Lemma PrintInfo_same (m : string) (p : PosePublisherPlugin) :
  same_but_status_and_box p (PrintInfo m p).
Proof.
  exists m, (outputframe (ui_ p)).
  destruct p as [u d mo tl a pb tg]. destruct u as [ck en tp st cb].
  reflexivity.
Qed.

Lemma set_box_same (f : Qt.QComboBox -> Qt.QComboBox) (p : PosePublisherPlugin) :
  same_but_status_and_box p
    (with_ui (fun u => set_outputframe (f (outputframe u)) u) p).
Proof.
  exists (status (ui_ p)), (f (outputframe (ui_ p))).
  destruct p as [u d mo tl a pb tg]. destruct u as [ck en tp st cb].
  reflexivity.
Qed.

Lemma add_frames_same (frames : list string) (p : PosePublisherPlugin) :
  same_but_status_and_box p (add_frames frames p).
Proof.
  unfold add_frames. revert p.
  induction frames as [ | f rest IH]; intros p; cbn [fold_left].
  - apply same_but_status_and_box_refl.
  - eapply same_but_status_and_box_trans; [ | apply IH ].
    eapply same_but_status_and_box_trans;
      [ apply (set_box_same (Qt.addItem f)) | apply PrintInfo_same ].
Qed.

Ltac chain_same :=
  repeat first
    [ apply same_but_status_and_box_refl
    | eapply same_but_status_and_box_trans;
      [ | solve [ apply PrintInfo_same
                | apply (set_box_same (fun cb => Qt.clear cb))
                | apply (set_box_same (Qt.addItem _))
                | apply (set_box_same (Qt.setCurrentIndex _))
                | apply add_frames_same ] ] ].

Lemma updateFrames_same (fs : list string) (w : bool) (p : PosePublisherPlugin) :
  same_but_status_and_box p (updateFrames fs w p).
Proof.
  unfold updateFrames.
  repeat match goal with
         | |- context [if ?b then _ else _] => destruct b
         end; chain_same.
Qed.

(** X1.  A refresh tick changes nothing but the status line and the frame
    box: the drag session, the toggle, the topic text, the publisher and the
    target frame are as before, and so are the arrow [Draw] paints and the
    outcome of a release, up to those two widgets. *)
Theorem updateFrames_leaves_drag_and_publisher (fs : list string) (w : bool)
    (p : PosePublisherPlugin) :
  let q := updateFrames fs w p in
  (is_mouse_down_ q = is_mouse_down_ p /\
   arrow_tail_position_ q = arrow_tail_position_ p /\
   arrow_angle_ q = arrow_angle_ p /\
   pose_pub_ q = pose_pub_ p /\
   target_frame_ q = target_frame_ p) /\
  (pushButtonPose_checked (ui_ q) = pushButtonPose_checked (ui_ p) /\
   pushButtonPose_enabled (ui_ q) = pushButtonPose_enabled (ui_ p) /\
   topic (ui_ q) = topic (ui_ p)) /\
  (forall x y scale, Draw x y scale q = Draw x y scale p) /\
  (forall now event,
     consumed (handleMouseRelease now event q)
     = consumed (handleMouseRelease now event p) /\
     effects (handleMouseRelease now event q)
     = effects (handleMouseRelease now event p)).
Proof.
  intros q. subst q.
  destruct (updateFrames_same fs w p) as (st & cb & ->).
  destruct p as [u d m tl a pb tg]. destruct u as [ck en tp st0 cb0].
  repeat split; try reflexivity;
    unfold handleMouseRelease; cbn; destruct d, ck; reflexivity.
Qed.

(** ** The state machine *)

Lemma run_app (tr1 tr2 : list Input) (p : PosePublisherPlugin) :
  run (tr1 ++ tr2) p
  = (fst (run tr1 p) ++ fst (run tr2 (snd (run tr1 p))),
     snd (run tr2 (snd (run tr1 p))))%list.
Proof.
  revert p. induction tr1 as [ | i tr1 IH]; intros p; cbn [app run fst snd].
  - now destruct (run tr2 p).
  - rewrite IH. destruct (run tr1 (after (step i p))) as [es1 p1].
    cbn [fst snd]. now rewrite app_assoc.
Qed.

Lemma topicChanged_same_core (t : string) (p : PosePublisherPlugin) :
  is_mouse_down_ (topicChanged t p) = is_mouse_down_ p /\
  pushButtonPose_checked (ui_ (topicChanged t p)) = pushButtonPose_checked (ui_ p).
Proof. unfold topicChanged. destruct (negb _); split; reflexivity. Qed.

Lemma LoadConfig_same_core (tk fk : option string) (p : PosePublisherPlugin) :
  is_mouse_down_ (LoadConfig tk fk p) = is_mouse_down_ p /\
  pushButtonPose_checked (ui_ (LoadConfig tk fk p)) = pushButtonPose_checked (ui_ p).
Proof.
  unfold LoadConfig, topicChanged.
  destruct tk as [t | ], fk as [f | ]; try destruct (negb _); split; reflexivity.
Qed.

Lemma updateFrames_same_core (fs : list string) (w : bool) (p : PosePublisherPlugin) :
  is_mouse_down_ (updateFrames fs w p) = is_mouse_down_ p /\
  pushButtonPose_checked (ui_ (updateFrames fs w p)) = pushButtonPose_checked (ui_ p).
Proof.
  destruct (updateFrames_same fs w p) as (st & cb & ->). split; reflexivity.
Qed.

(** Unless the input switches the toggle on, a plugin that is disarmed and
    idle stays so, and the input is neither consumed nor published. *)
Lemma step_unarmed (i : Input) (p : PosePublisherPlugin) :
  is_arming i = false ->
  pushButtonPose_checked (ui_ p) = false ->
  is_mouse_down_ p = false ->
  consumed (step i p) = false /\ effects (step i p) = [] /\
  pushButtonPose_checked (ui_ (after (step i p))) = false /\
  is_mouse_down_ (after (step i p)) = false.
Proof.
  intros Harm Hoff Hup.
  destruct i as [c now e | t | b | ix | | fs w | tk fk];
    cbn [step consumed effects after].
  - destruct e as [e | e | e | ]; cbn [eventFilter].
    + unfold handleMousePress. rewrite Hoff. cbn. auto.
    + unfold handleMouseRelease. rewrite Hup. cbn. auto.
    + unfold handleMouseMove. rewrite Hup. cbn. auto.
    + cbn. auto.
  - destruct (topicChanged_same_core t (with_ui (set_topic t) p)) as [-> ->].
    cbn. auto.
  - destruct b; [discriminate | ]. cbn. auto.
  - cbn. auto.
  - cbn. auto.
  - destruct (updateFrames_same_core fs w p) as [-> ->]. auto.
  - destruct (LoadConfig_same_core tk fk p) as [-> ->]. auto.
Qed.

(** X2.  As long as the toggle has never been switched on, the plugin is
    inert: along any such trace from the constructor on nothing is
    published, no session starts, every canvas event is handed back
    unconsumed with the plugin unchanged, and [Draw] paints nothing. *)
Theorem never_armed_plugin_is_inert (tr : list Input) (angle0 : R)
    (target : string) :
  forallb (fun i => negb (is_arming i)) tr = true ->
  let p := snd (run tr (PosePublisherPlugin_new angle0 target)) in
  fst (run tr (PosePublisherPlugin_new angle0 target)) = [] /\
  pushButtonPose_checked (ui_ p) = false /\
  is_mouse_down_ p = false /\
  (forall c now event, eventFilter c now event p = mkOutcome false [] p) /\
  (forall x y scale, Draw x y scale p = []).
Proof.
  intros Hno p.
  assert (Hgen : forall q,
             pushButtonPose_checked (ui_ q) = false ->
             is_mouse_down_ q = false ->
             fst (run tr q) = [] /\
             pushButtonPose_checked (ui_ (snd (run tr q))) = false /\
             is_mouse_down_ (snd (run tr q)) = false).
  { clear p. induction tr as [ | i tr IH]; intros q Hoff Hup; [cbn; auto | ].
    cbn [forallb] in Hno. apply andb_true_iff in Hno as [Hi Hrest].
    apply negb_true_iff in Hi.
    destruct (step_unarmed i q Hi Hoff Hup) as (_ & Heff & Hoff' & Hup').
    destruct (IH Hrest _ Hoff' Hup') as (Hes & Hck & Hdn).
    cbn [run]. destruct (run tr (after (step i q))) as [es q'].
    cbn [fst snd] in *. rewrite Heff, Hes. auto. }
  destruct (Hgen (PosePublisherPlugin_new angle0 target) eq_refl eq_refl)
    as (Hes & Hoff & Hup).
  fold p in Hoff, Hup.
  repeat split; try assumption.
  - intros c now [e | e | e | ]; cbn [eventFilter].
    + unfold handleMousePress. now rewrite Hoff.
    + unfold handleMouseRelease. now rewrite Hup.
    + unfold handleMouseMove. now rewrite Hup.
    + reflexivity.
  - intros x y scale. unfold Draw. now rewrite Hup.
Qed.

Lemma never_armed_plugin_is_inert_witness :
  let tr := [TopicEdited "/pose_out"; FrameTimer ["map"%string] true;
             CanvasEvent canvas_id t0 (MouseButtonPress (left_at 1 2));
             CanvasEvent canvas_id t0 (MouseMove (left_at 2 2));
             CanvasEvent canvas_id t0 (MouseButtonRelease (left_at 2 2))] in
  fst (run tr (PosePublisherPlugin_new 0 "map")) = [].
Proof.
  intros tr.
  exact (proj1 (never_armed_plugin_is_inert tr 0 "map" eq_refl)).
Defined.

(** One input publishes at most one pose, and it uses up the toggle: the
    poses published plus the toggle left checked never exceed the toggle
    found checked plus one if the input itself switches it on. *)
Lemma step_uses_arming (i : Input) (p : PosePublisherPlugin) :
  (List.length (effects (step i p))
   + (if pushButtonPose_checked (ui_ (after (step i p))) then 1 else 0)
   <= (if pushButtonPose_checked (ui_ p) then 1 else 0)
      + (if is_arming i then 1 else 0))%nat.
Proof.
  destruct i as [c now e | t | b | ix | | fs w | tk fk];
    cbn [step effects after is_arming List.length].
  - destruct e as [e | e | e | ]; cbn [eventFilter].
    + unfold handleMousePress.
      destruct (pushButtonPose_checked (ui_ p)) eqn:Hck; cbn [negb].
      * destruct (Qt.button e); cbn; rewrite Hck; lia.
      * cbn. rewrite Hck. lia.
    + destruct (is_mouse_down_ p) eqn:Hdown.
      * destruct (pushButtonPose_checked (ui_ p)) eqn:Hck.
        -- rewrite (handleMouseRelease_armed now e p Hdown Hck). cbn. lia.
        -- rewrite (proj2 (release_clears_drag_session_aux now e p) Hdown Hck).
           cbn. rewrite Hck. lia.
      * unfold handleMouseRelease. rewrite Hdown. cbn.
        destruct (pushButtonPose_checked (ui_ p)); lia.
    + unfold handleMouseMove.
      destruct (is_mouse_down_ p); cbn;
        destruct (pushButtonPose_checked (ui_ p)); lia.
    + cbn. destruct (pushButtonPose_checked (ui_ p)); lia.
  - rewrite (proj2 (topicChanged_same_core t (with_ui (set_topic t) p))).
    cbn. destruct (pushButtonPose_checked (ui_ p)); lia.
  - cbn. destruct b, (pushButtonPose_checked (ui_ p)); lia.
  - cbn. destruct (pushButtonPose_checked (ui_ p)); lia.
  - cbn. destruct (pushButtonPose_checked (ui_ p)); lia.
  - rewrite (proj2 (updateFrames_same_core fs w p)).
    destruct (pushButtonPose_checked (ui_ p)); lia.
  - rewrite (proj2 (LoadConfig_same_core tk fk p)).
    destruct (pushButtonPose_checked (ui_ p)); lia.
Qed.

(** X3.  Each time the toggle is switched on pays for at most one pose:
    along any trace, the poses published are at most the armings in the
    trace, plus one if the toggle was checked at the start.  From the
    constructor on they are at most the armings. *)
Theorem publishes_at_most_once_per_arming (tr : list Input)
    (p : PosePublisherPlugin) :
  (List.length (fst (run tr p))
   <= armings tr + (if pushButtonPose_checked (ui_ p) then 1 else 0))%nat /\
  (forall angle0 target,
     List.length (fst (run tr (PosePublisherPlugin_new angle0 target)))
     <= armings tr)%nat.
Proof.
  assert (Hgen : forall q,
             (List.length (fst (run tr q))
              <= armings tr
                 + (if pushButtonPose_checked (ui_ q) then 1 else 0))%nat).
  { clear p. unfold armings.
    induction tr as [ | i tr IH]; intros q; [cbn; lia | ].
    pose proof (step_uses_arming i q) as Hstep.
    specialize (IH (after (step i q))).
    cbn [run filter]. destruct (run tr (after (step i q))) as [es q'].
    cbn [fst] in *. rewrite length_app.
    destruct (is_arming i); cbn [List.length] in *; lia. }
  split; [apply Hgen | ].
  intros angle0 target.
  specialize (Hgen (PosePublisherPlugin_new angle0 target)). cbn in Hgen. lia.
Qed.

(** X4.  Only a mouse release publishes, and only when it finds a session
    active and the toggle checked; it then makes exactly one publish call,
    on the publisher as bound at that moment.  Every other input (press,
    move, topic edit, toggle, frame choice, timers, configuration load)
    publishes nothing. *)
Theorem only_armed_release_publishes (i : Input) (p : PosePublisherPlugin) :
  (is_release i && is_mouse_down_ p && pushButtonPose_checked (ui_ p) = true ->
   exists m, effects (step i p) = [Publish (pose_pub_ p) m]) /\
  (is_release i && is_mouse_down_ p && pushButtonPose_checked (ui_ p) = false ->
   effects (step i p) = []).
Proof.
  split; intros Hcond.
  - apply andb_true_iff in Hcond as [Hcond Hck].
    apply andb_true_iff in Hcond as [Hrel Hdown].
    destruct i as [c now [e | e | e | ] | | | | | | ]; try discriminate.
    cbn [step eventFilter].
    rewrite (handleMouseRelease_armed now e p Hdown Hck). cbn. eauto.
  - destruct i as [c now e | t | b | ix | | fs w | tk fk];
      cbn [step effects]; try reflexivity.
    destruct e as [e | e | e | ]; cbn [eventFilter].
    + unfold handleMousePress. destruct (negb _); [reflexivity | ].
      destruct (Qt.button e); reflexivity.
    + cbn [is_release andb] in Hcond. unfold handleMouseRelease.
      destruct (is_mouse_down_ p); cbn [negb]; [ | reflexivity ].
      cbn [andb] in Hcond. cbn [set_mouse_down ui_]. rewrite Hcond.
      reflexivity.
    + unfold handleMouseMove. destruct (is_mouse_down_ p); reflexivity.
    + reflexivity.
Qed.

Lemma only_armed_release_publishes_witness :
  let armed := with_ui (set_checked true) (PosePublisherPlugin_new 0 "map") in
  let p := after (handleMousePress canvas_id (left_at 1 2) armed) in
  (exists m,
     effects (step (CanvasEvent canvas_id t0 (MouseButtonRelease (left_at 1 2))) p)
     = [Publish None m]) /\
  effects (step (CanvasEvent canvas_id t0 (MouseMove (left_at 3 4))) p) = [].
Proof.
  intros armed p. split.
  - exact (proj1 (only_armed_release_publishes
                    (CanvasEvent canvas_id t0 (MouseButtonRelease (left_at 1 2))) p)
                 eq_refl).
  - exact (proj2 (only_armed_release_publishes
                    (CanvasEvent canvas_id t0 (MouseMove (left_at 3 4))) p)
                 eq_refl).
Defined.

(** X5.  Which canvas events the filter swallows: a press exactly when the
    toggle is checked and the button is the left one; a release exactly
    when a session is active and the toggle is checked; a move or any other
    event never. *)
Theorem eventFilter_consumed (map_canvas_ : MapCanvas) (now : Msg.Time)
    (event : QEvent) (p : PosePublisherPlugin) :
  consumed (eventFilter map_canvas_ now event p)
  = match event with
    | MouseButtonPress e =>
        pushButtonPose_checked (ui_ p) && is_left (Qt.button e)
    | MouseButtonRelease _ =>
        is_mouse_down_ p && pushButtonPose_checked (ui_ p)
    | MouseMove _ => false
    | OtherEvent => false
    end.
Proof.
  destruct event as [e | e | e | ]; cbn [eventFilter].
  - unfold handleMousePress.
    destruct (pushButtonPose_checked (ui_ p)); cbn [negb andb]; [ | reflexivity ].
    destruct (Qt.button e); reflexivity.
  - unfold handleMouseRelease.
    destruct (is_mouse_down_ p); cbn [negb andb]; [ | reflexivity ].
    cbn [set_mouse_down ui_].
    destruct (pushButtonPose_checked (ui_ p)); reflexivity.
  - unfold handleMouseMove. destruct (is_mouse_down_ p); reflexivity.
  - reflexivity.
Qed.

(** A passive input publishes nothing and keeps everything a release
    reads, except the heading. *)
Lemma step_passive (i : Input) (p : PosePublisherPlugin) :
  is_passive i = true ->
  effects (step i p) = [] /\
  is_mouse_down_ (after (step i p)) = is_mouse_down_ p /\
  pushButtonPose_checked (ui_ (after (step i p))) = pushButtonPose_checked (ui_ p) /\
  arrow_tail_position_ (after (step i p)) = arrow_tail_position_ p /\
  pose_pub_ (after (step i p)) = pose_pub_ p /\
  target_frame_ (after (step i p)) = target_frame_ p.
Proof.
  intros Hpassive.
  destruct i as [c now [e | e | e | ] | | | | | fs w | ]; try discriminate;
    cbn [step eventFilter effects after].
  - unfold handleMouseMove. destruct (is_mouse_down_ p) eqn:Hdown; cbn; auto 7.
  - auto 7.
  - cbn. auto 7.
  - destruct (updateFrames_same fs w p) as (st & cb & ->). cbn. auto 7.
Qed.

Lemma run_passive (tr : list Input) (p : PosePublisherPlugin) :
  forallb is_passive tr = true ->
  fst (run tr p) = [] /\
  is_mouse_down_ (snd (run tr p)) = is_mouse_down_ p /\
  pushButtonPose_checked (ui_ (snd (run tr p))) = pushButtonPose_checked (ui_ p) /\
  arrow_tail_position_ (snd (run tr p)) = arrow_tail_position_ p /\
  pose_pub_ (snd (run tr p)) = pose_pub_ p /\
  target_frame_ (snd (run tr p)) = target_frame_ p.
Proof.
  revert p. induction tr as [ | i tr IH]; intros p Hall; [cbn; auto 7 | ].
  cbn [forallb] in Hall. apply andb_true_iff in Hall as [Hi Hrest].
  destruct (step_passive i p Hi) as (He & Hd & Hc & Ht & Hp & Hf).
  destruct (IH (after (step i p)) Hrest) as (He' & Hd' & Hc' & Ht' & Hp' & Hf').
  cbn [run]. destruct (run tr (after (step i p))) as [es q].
  cbn [fst snd] in *. rewrite He, He'. repeat split; congruence.
Qed.

(** X6.  The pose published at the end of a drag sits where the button
    went down.  After an accepted press, whatever mouse moves, other canvas
    events, timer ticks and frame refreshes come before the release, and
    whatever the canvas maps pixels to by then, the release publishes
    exactly one pose: its position is the press location as the canvas
    mapped it at the press, with z = 0, its frame is the target frame and
    its stamp the time of the release.  Afterwards the toggle is off and no
    session is active. *)
Theorem published_position_is_press_point (c0 c1 : MapCanvas) (now0 now1 : Msg.Time)
    (e0 e1 : Qt.QMouseEvent) (between : list Input) (p : PosePublisherPlugin) :
  pushButtonPose_checked (ui_ p) = true ->
  Qt.button e0 = Qt.LeftButton ->
  forallb is_passive between = true ->
  let tr := (CanvasEvent c0 now0 (MouseButtonPress e0)
             :: between ++ [CanvasEvent c1 now1 (MouseButtonRelease e1)])%list in
  let tail := MapGlCoordToFixedFrame c0 (Qt.localPos e0) in
  exists m,
    fst (run tr p) = [Publish (pose_pub_ p) m] /\
    Msg.position (Msg.pose (Msg.pose_cov m)) = Msg.mkPoint (Qt.x tail) (Qt.y tail) 0 /\
    Msg.frame_id (Msg.header m) = target_frame_ p /\
    Msg.stamp (Msg.header m) = now1 /\
    pushButtonPose_checked (ui_ (snd (run tr p))) = false /\
    is_mouse_down_ (snd (run tr p)) = false.
Proof.
  intros Harmed Hleft Hpassive tr tail.
  set (pressed := set_arrow_tail tail (set_arrow_angle 0 (set_mouse_down true p))).
  assert (Hpress : handleMousePress c0 e0 p = mkOutcome true [] pressed).
  { unfold handleMousePress. rewrite Harmed, Hleft. reflexivity. }
  destruct (run_passive between pressed Hpassive)
    as (He & Hd & Hc & Ht & Hp & Hf).
  set (q := snd (run between pressed)) in *.
  assert (Hdown : is_mouse_down_ q = true) by (rewrite Hd; reflexivity).
  assert (Hck : pushButtonPose_checked (ui_ q) = true)
    by (rewrite Hc; exact Harmed).
  pose proof (handleMouseRelease_armed now1 e1 q Hdown Hck) as Hrel.
  assert (Hrun : run tr p
                 = (effects (handleMouseRelease now1 e1 q),
                    after (handleMouseRelease now1 e1 q))).
  { subst tr. cbn [run step eventFilter]. rewrite Hpress.
    cbn [after effects app]. rewrite run_app. fold q. rewrite He.
    cbn [app run step eventFilter fst snd]. now rewrite app_nil_r. }
  rewrite Hrun, Hrel. cbn [fst snd effects after]. rewrite Hp, Hf, Ht.
  eexists. split; [reflexivity | ]. repeat split; reflexivity.
Qed.

(** A refresh and a move of the pointer under a shifted canvas lie between
    press and release. *)
Lemma published_position_is_press_point_witness :
  let p := with_ui (set_checked true) (PosePublisherPlugin_new 0 "map") in
  let shifted := mkMapCanvas (fun q => Qt.mkQPointF (Qt.x q + 7) (Qt.y q)) in
  let tr := [CanvasEvent canvas_id t0 (MouseButtonPress (left_at 1 2));
             FrameTimer ["map"; "odom"]%string false;
             CanvasEvent shifted t0 (MouseMove (left_at 4 4));
             CanvasEvent shifted t0 (MouseButtonRelease (left_at 4 4))] in
  exists m,
    fst (run tr p) = [Publish None m] /\
    Msg.position (Msg.pose (Msg.pose_cov m)) = Msg.mkPoint 1 2 0.
Proof.
  intros p shifted tr.
  destruct (published_position_is_press_point
              canvas_id shifted t0 t0 (left_at 1 2) (left_at 4 4)
              [FrameTimer ["map"; "odom"]%string false;
               CanvasEvent shifted t0 (MouseMove (left_at 4 4))]
              p eq_refl eq_refl eq_refl)
    as (m & Hrun & Hpos & _).
  exists m. split; [exact Hrun | exact Hpos].
Defined.

Lemma run_moves (now : Msg.Time) (moves : list (MapCanvas * Qt.QMouseEvent))
    (p : PosePublisherPlugin) :
  is_mouse_down_ p = true ->
  run (move_inputs now moves) p
  = ([], set_arrow_angle
           (heading_after (arrow_tail_position_ p) moves (arrow_angle_ p)) p).
Proof.
  revert p. induction moves as [ | [c e] rest IH]; intros p Hdown.
  - cbn. destruct p. reflexivity.
  - cbn [move_inputs map run step eventFilter fst snd].
    unfold handleMouseMove. rewrite Hdown. cbn [after effects app].
    fold (move_inputs now rest). rewrite IH by exact Hdown.
    reflexivity.
Qed.

(** X7.  During a session only the latest move counts.  A run of mouse
    moves publishes nothing and leaves the session as it was except for
    the heading, which is the arctangent of the last pointer position
    relative to the tail (the canvas mapping being the one of that last
    move); a release that follows, with the toggle checked, publishes the
    orientation of that heading. *)
Theorem heading_is_that_of_last_move (now now1 : Msg.Time)
    (moves : list (MapCanvas * Qt.QMouseEvent)) (c : MapCanvas)
    (e e1 : Qt.QMouseEvent) (p : PosePublisherPlugin) :
  is_mouse_down_ p = true ->
  let tail := arrow_tail_position_ p in
  let head := MapGlCoordToFixedFrame c (Qt.localPos e) in
  let a := Libm.atan2 (Qt.y head - Qt.y tail) (Qt.x head - Qt.x tail) in
  let all := (moves ++ [(c, e)])%list in
  run (move_inputs now all) p = ([], set_arrow_angle a p) /\
  (pushButtonPose_checked (ui_ p) = true ->
   exists m,
     fst (run (move_inputs now all
               ++ [CanvasEvent c now1 (MouseButtonRelease e1)]) p)
     = [Publish (pose_pub_ p) m] /\
     Msg.orientation (Msg.pose (Msg.pose_cov m)) = yaw_quaternion a).
Proof.
  intros Hdown tail head a all.
  assert (Hheading : forall a0, heading_after tail all a0 = a).
  { subst all. clear Hdown. induction moves as [ | [c' e'] rest IH]; intros a0.
    - reflexivity.
    - cbn [app heading_after]. apply IH. }
  assert (Hrun : run (move_inputs now all) p = ([], set_arrow_angle a p)).
  { rewrite run_moves by exact Hdown. fold tail. now rewrite Hheading. }
  split; [exact Hrun | ].
  intros Hck. rewrite run_app, Hrun.
  cbn [fst snd app run step eventFilter].
  rewrite handleMouseRelease_armed by (cbn; assumption).
  cbn. eexists. split; reflexivity.
Qed.

Lemma heading_is_that_of_last_move_witness :
  let armed := with_ui (set_checked true) (PosePublisherPlugin_new 0 "map") in
  let p := after (handleMousePress canvas_id (left_at 0 0) armed) in
  snd (run (move_inputs t0 [(canvas_id, left_at 3 1); (canvas_id, left_at 0 5)]) p)
  = set_arrow_angle (Libm.atan2 (5 - 0) (0 - 0)) p.
Proof.
  intros armed p.
  pose proof (proj1 (heading_is_that_of_last_move
                       t0 t0 [(canvas_id, left_at 3 1)] canvas_id
                       (left_at 0 5) (left_at 0 5) p eq_refl)) as Hrun.
  cbn [app] in Hrun. rewrite Hrun. reflexivity.
Defined.

(** ** The arrow *)

Section Arrow.
Local Open Scope R_scope.

(** The quaternion of a yaw turns a point in the plane by that angle. *)
Lemma Transform_apply_yaw (yaw vx vy : R) :
  tf3.Transform_apply (tf.createQuaternionFromYaw yaw) (tf3.mkVector3 vx vy 0)
  = tf3.mkVector3 (cos yaw * vx - sin yaw * vy) (sin yaw * vx + cos yaw * vy) 0.
Proof.
  rewrite createQuaternionFromYaw_components.
  unfold tf3.Transform_apply, tf3.setRotation, tf3.dot, tf.length2.
  cbn [tf.x tf.y tf.z tf.w tf3.x tf3.y tf3.z tf3.row0 tf3.row1 tf3.row2].
  set (s := sin (yaw / 2)). set (c := cos (yaw / 2)).
  assert (Hunit : 0 * 0 + 0 * 0 + s * s + c * c = 1).
  { pose proof (sin2_cos2 (yaw / 2)) as H. unfold Rsqr in H.
    subst s c. lra. }
  assert (Hcos : cos yaw = 1 - 2 * s * s).
  { replace yaw with (2 * (yaw / 2)) at 1 by lra.
    rewrite cos_2a_sin. subst s. ring. }
  assert (Hsin : sin yaw = 2 * s * c).
  { replace yaw with (2 * (yaw / 2)) at 1 by lra.
    rewrite sin_2a. subst s c. ring. }
  rewrite Hunit, Hcos, Hsin.
  f_equal; field.
Qed.

Lemma transformed_point_placed (scale : R) (p : PosePublisherPlugin)
    (q : Qt.QPointF) :
  transformed_point scale p q
  = placed scale (arrow_angle_ p) (arrow_tail_position_ p) q.
Proof.
  unfold transformed_point, placed, tf3.scale.
  cbn [tf3.x tf3.y tf3.z].
  replace (0 * (scale * 10)) with 0 by ring.
  rewrite Transform_apply_yaw. cbn [tf3.x tf3.y].
  f_equal; ring.
Qed.

End Arrow.

Lemma Draw_paints_placed_arrow_aux (x y scale : R) (p : PosePublisherPlugin) :
  (is_mouse_down_ p = false -> Draw x y scale p = []) /\
  (is_mouse_down_ p = true ->
   let vertices :=
     gl_vertices (map (placed scale (arrow_angle_ p) (arrow_tail_position_ p))
                      arrow_points) in
   Draw x y scale p
   = ([glColor3f (1 / 10) (9 / 10) (1 / 10); glLineWidth 2;
       glBegin GL_TRIANGLE_FAN]
        ++ vertices ++ [glEnd]
        ++ [glColor3f 0 (6 / 10) 0; glBegin GL_LINE_LOOP]
        ++ vertices ++ [glEnd])%list /\
   List.length vertices = 7%nat).
Proof.
  split; intros Hdown; unfold Draw; rewrite Hdown; [reflexivity | ].
  cbv zeta.
  assert (Hmap : map (transformed_point scale p) arrow_points
                 = map (placed scale (arrow_angle_ p) (arrow_tail_position_ p))
                       arrow_points).
  { apply map_ext. intros q. apply transformed_point_placed. }
  rewrite Hmap. split; reflexivity.
Qed.

(** X8.  What [Draw] paints.  With no session active it makes no OpenGL
    call.  With a session active it paints the seven arrow points twice,
    as a filled fan and as an outline, each point turned by the heading
    angle, stretched by ten times the zoom and moved to the tail; the
    arguments [x] and [y] play no part. *)
Theorem Draw_paints_placed_arrow (x y scale : R) (p : PosePublisherPlugin) :
  (is_mouse_down_ p = false -> Draw x y scale p = []) /\
  (is_mouse_down_ p = true ->
   let vertices :=
     gl_vertices (map (placed scale (arrow_angle_ p) (arrow_tail_position_ p))
                      arrow_points) in
   Draw x y scale p
   = ([glColor3f (1 / 10) (9 / 10) (1 / 10); glLineWidth 2;
       glBegin GL_TRIANGLE_FAN]
        ++ vertices ++ [glEnd]
        ++ [glColor3f 0 (6 / 10) 0; glBegin GL_LINE_LOOP]
        ++ vertices ++ [glEnd])%list /\
   List.length vertices = 7%nat).
Proof. exact (Draw_paints_placed_arrow_aux x y scale p). Qed.

(** Just after an accepted press at (1, 2) the arrow lies along the x
    axis: its tip is 100 times the zoom to the right of the tail. *)
Lemma Draw_paints_placed_arrow_witness :
  let armed := with_ui (set_checked true) (PosePublisherPlugin_new 0 "map") in
  let p := after (handleMousePress canvas_id (left_at 1 2) armed) in
  nth 3 (Draw 0 0 1 p) glEnd
  = glVertex2d (1 + 10 * 1 * (cos 0 * 10 - sin 0 * 0))
               (2 + 10 * 1 * (sin 0 * 10 + cos 0 * 0)).
Proof.
  intros armed p.
  destruct (proj2 (Draw_paints_placed_arrow 0 0 1 p) eq_refl) as [Hdraw _].
  rewrite Hdraw. reflexivity.
Defined.

(** X9.  The arrow points at the pointer.  After a mouse move during a
    session, to a position different from the tail, the first vertex
    [Draw] paints (the tip) lies on the ray from the tail through the
    pointer, 100 times the zoom away from the tail: with r the distance
    from tail to pointer, r * (tip - tail) = 100 * scale * (pointer - tail)
    in both coordinates. *)
Theorem arrow_tip_points_at_pointer (map_canvas_ : MapCanvas)
    (event : Qt.QMouseEvent) (x y scale : R) (p : PosePublisherPlugin) :
  is_mouse_down_ p = true ->
  let head := MapGlCoordToFixedFrame map_canvas_ (Qt.localPos event) in
  let tail := arrow_tail_position_ p in
  head <> tail ->
  let dx := (Qt.x head - Qt.x tail)%R in
  let dy := (Qt.y head - Qt.y tail)%R in
  let r := sqrt (dx * dx + dy * dy) in
  let moved := after (handleMouseMove map_canvas_ event p) in
  exists tip_x tip_y,
    nth 3 (Draw x y scale moved) glEnd = glVertex2d tip_x tip_y /\
    (0 < r /\
     r * (tip_x - Qt.x tail) = 100 * scale * dx /\
     r * (tip_y - Qt.y tail) = 100 * scale * dy)%R.
Proof.
  intros Hdown head tail Hne dx dy r moved.
  assert (Hmoved : moved = set_arrow_angle (Libm.atan2 dy dx) p).
  { subst moved. unfold handleMouseMove. rewrite Hdown. reflexivity. }
  assert (Hdelta : (dx, dy) <> (0%R, 0%R)).
  { intros Heq. apply Hne. injection Heq as Hx Hy.
    subst dx dy. destruct head as [hx hy], tail as [tx ty]; cbn in *.
    f_equal; lra. }
  destruct (atan2_polar dx dy Hdelta) as (Hcos & Hsin & _).
  fold r in Hcos, Hsin.
  assert (Hr : (0 < r)%R).
  { subst r. apply sqrt_lt_R0. now apply hyp_pos. }
  assert (Hdown' : is_mouse_down_ moved = true) by (rewrite Hmoved; exact Hdown).
  destruct (proj2 (Draw_paints_placed_arrow_aux x y scale moved) Hdown')
    as [Hdraw _].
  rewrite Hdraw, Hmoved.
  cbn [arrow_angle_ arrow_tail_position_ set_arrow_angle arrow_points map
       gl_vertices app nth placed Qt.x Qt.y].
  fold tail. set (a := Libm.atan2 dy dx) in *.
  do 2 eexists. split; [reflexivity | ].
  split; [exact Hr | ]. split; nra.
Qed.

(** Press at (0, 0), pointer moved to (3, 4): the distance is 5. *)
Lemma arrow_tip_points_at_pointer_witness :
  let armed := with_ui (set_checked true) (PosePublisherPlugin_new 0 "map") in
  let p := after (handleMousePress canvas_id (left_at 0 0) armed) in
  let moved := after (handleMouseMove canvas_id (left_at 3 4) p) in
  exists tip_x tip_y,
    nth 3 (Draw 0 0 1 moved) glEnd = glVertex2d tip_x tip_y /\
    (sqrt ((3 - 0) * (3 - 0) + (4 - 0) * (4 - 0)) * (tip_x - 0)
     = 100 * 1 * (3 - 0))%R.
Proof.
  intros armed p moved.
  assert (Hne : MapGlCoordToFixedFrame canvas_id (Qt.localPos (left_at 3 4))
                <> arrow_tail_position_ p).
  { cbn. intros Heq. injection Heq as Hx Hy. lra. }
  destruct (arrow_tip_points_at_pointer canvas_id (left_at 3 4) 0 0 1 p
              eq_refl Hne)
    as (tx & ty & Hnth & _ & Hx & _).
  exists tx, ty. split; [exact Hnth | exact Hx].
Defined.

(** ** More on the frame box *)

Lemma updateFrames_currentText (fs : list string) (w : bool)
    (p : PosePublisherPlugin) :
  Qt.currentText (outputframe (ui_ p)) <> EmptyString ->
  Qt.currentText (outputframe (ui_ (updateFrames fs w p)))
  = Qt.currentText (outputframe (ui_ p)).
Proof.
  intros Hcur. rewrite updateFrames_outputframe.
  destruct (_ =? _); [reflexivity | now apply currentText_rebuilt].
Qed.

Lemma run_refresh_currentText (ticks : list (list string * bool))
    (p : PosePublisherPlugin) :
  Qt.currentText (outputframe (ui_ p)) <> EmptyString ->
  fst (run (refresh_inputs ticks) p) = [] /\
  Qt.currentText (outputframe (ui_ (snd (run (refresh_inputs ticks) p))))
  = Qt.currentText (outputframe (ui_ p)).
Proof.
  revert p. induction ticks as [ | [fs w] rest IH]; intros p Hcur; [now cbn | ].
  cbn [refresh_inputs map run step effects after fst snd app].
  fold (refresh_inputs rest).
  pose proof (updateFrames_currentText fs w p Hcur) as Hstep.
  destruct (IH (updateFrames fs w p)) as [He Ht]; [now rewrite Hstep | ].
  destruct (run (refresh_inputs rest) (updateFrames fs w p)) as [es q].
  cbn [fst snd] in *. split; [exact He | congruence].
Qed.

(** X10.  A non-empty selection survives every refresh: whatever the
    transform collaborator answers, tick after tick, the current text of
    the frame box stays what it was (rebuilt or not), and no tick
    publishes. *)
Theorem refreshes_keep_selected_text (ticks : list (list string * bool))
    (p : PosePublisherPlugin) :
  Qt.currentText (outputframe (ui_ p)) <> EmptyString ->
  fst (run (refresh_inputs ticks) p) = [] /\
  Qt.currentText (outputframe (ui_ (snd (run (refresh_inputs ticks) p))))
  = Qt.currentText (outputframe (ui_ p)).
Proof. exact (run_refresh_currentText ticks p). Qed.

Lemma refreshes_keep_selected_text_witness :
  let p := with_ui (set_outputframe (Qt.mkQComboBox ["map"; "odom"]%string 1))
                   (PosePublisherPlugin_new 0 "map") in
  let ticks := [(["map"]%string, true); ([], false);
                (["base"; "map"; "odom"]%string, false)] in
  Qt.currentText (outputframe (ui_ (snd (run (refresh_inputs ticks) p))))
  = "odom"%string.
Proof.
  intros p ticks.
  assert (Hcur : Qt.currentText (outputframe (ui_ p)) <> EmptyString)
    by (cbn; discriminate).
  exact (proj2 (refreshes_keep_selected_text ticks p Hcur)).
Defined.

(** X11.  What a rebuild shows.  When the number of candidates differs from
    the number of entries shown, the box afterwards starts with the
    candidates in the order they were returned; if nothing (or an entry
    with empty text) was selected before, the box holds exactly the
    candidates and the first of them becomes the current entry, with no
    current entry when there are no candidates. *)
Theorem rebuild_offers_candidates (fs : list string) (w : bool)
    (p : PosePublisherPlugin) :
  let F := candidates fs w in
  let cb' := outputframe (ui_ (updateFrames fs w p)) in
  Qt.count (outputframe (ui_ p)) <> Z.of_nat (List.length F) ->
  firstn (List.length F) (Qt.items cb') = F /\
  (Qt.currentText (outputframe (ui_ p)) = EmptyString ->
   Qt.items cb' = F /\
   Qt.currentIndex cb' = match F with [] => -1 | _ :: _ => 0 end /\
   Qt.currentText cb' = hd EmptyString F).
Proof.
  intros F cb' Hcount.
  assert (Hcb : cb' = rebuilt F (Qt.currentText (outputframe (ui_ p)))).
  { subst cb'. rewrite updateFrames_outputframe. fold F.
    replace (Qt.count (outputframe (ui_ p)) =? Z.of_nat (List.length F))
      with false by lia.
    reflexivity. }
  rewrite Hcb. split.
  - unfold rebuilt.
    destruct (String.eqb _ _); [ | destruct (in_dec _ _ _) ];
      cbn [Qt.items];
      rewrite ?firstn_all; try reflexivity.
    rewrite firstn_app, firstn_all, Nat.sub_diag. cbn. apply app_nil_r.
  - intros Hcur. unfold rebuilt. rewrite Hcur. cbn [String.eqb Qt.items Qt.currentIndex].
    repeat split.
    destruct F as [ | f rest]; [reflexivity | ].
    unfold Qt.currentText, Qt.itemText, Qt.count.
    cbn [Qt.items Qt.currentIndex List.length hd].
    replace ((0 <=? 0) && (0 <? Z.of_nat (S (List.length rest)))) with true by lia.
    reflexivity.
Qed.

(** The first refresh after construction. *)
Lemma rebuild_offers_candidates_witness :
  let p := PosePublisherPlugin_new 0 "map" in
  let cb' := outputframe (ui_ (updateFrames ["map"; "odom"]%string true p)) in
  Qt.items cb' = ["map"; "odom"; "/wgs84"]%string /\
  Qt.currentText cb' = "map"%string.
Proof.
  intros p cb'.
  assert (Hcount : Qt.count (outputframe (ui_ p))
                   <> Z.of_nat (List.length (candidates ["map"; "odom"]%string true)))
    by (cbn; lia).
  destruct (rebuild_offers_candidates ["map"; "odom"]%string true p Hcount)
    as [_ Hfresh].
  destruct (Hfresh eq_refl) as (Hitems & _ & Htext).
  split; [exact Hitems | exact Htext].
Defined.

(** ** Saving and loading *)

Lemma FindValue_app (pre node : YamlNode) (key : string) :
  FindValue pre key = None ->
  FindValue (pre ++ node) key = FindValue node key.
Proof.
  induction pre as [ | [k v] rest IH]; cbn; [reflexivity | ].
  destruct (String.eqb k key); [discriminate | exact IH].
Qed.

Lemma LoadConfig_fresh (t f : string) (angle0 : R) (target : string) :
  let q := LoadConfig (Some t) (Some f) (PosePublisherPlugin_new angle0 target) in
  topic (ui_ q) = t /\
  outputframe (ui_ q) = Qt.mkQComboBox [f] 0 /\
  Qt.currentText (outputframe (ui_ q)) = f /\
  pose_pub_ q = (if String.eqb t EmptyString then None else Some t).
Proof.
  cbv zeta. unfold LoadConfig, topicChanged.
  cbn [with_ui ui_ set_topic topic PosePublisherPlugin_new].
  destruct (String.eqb t EmptyString); cbn; repeat split.
Qed.

(** X12.  Saving and loading round-trip.  The pairs [SaveConfig] emits,
    placed after any host keys other than "topic" and "output_frame" and
    loaded into a freshly constructed plugin, restore the topic text and
    make the saved output frame the current (and only) entry of the frame
    box, so that saving again emits the same pairs.  The publisher is bound
    to the topic if it is non-empty and is left unbound otherwise. *)
Theorem SaveConfig_LoadConfig_roundtrip (host : YamlNode)
    (p : PosePublisherPlugin) (angle0 : R) (target : string) :
  FindValue host "topic" = None ->
  FindValue host "output_frame" = None ->
  let q := LoadConfig_node (host ++ SaveConfig p)
                           (PosePublisherPlugin_new angle0 target) in
  topic (ui_ q) = topic (ui_ p) /\
  Qt.items (outputframe (ui_ q)) = [Qt.currentText (outputframe (ui_ p))] /\
  Qt.currentText (outputframe (ui_ q)) = Qt.currentText (outputframe (ui_ p)) /\
  pose_pub_ q = (if String.eqb (topic (ui_ p)) EmptyString
                 then None else Some (topic (ui_ p))) /\
  SaveConfig q = SaveConfig p.
Proof.
  intros Ht Hf q. subst q. unfold LoadConfig_node.
  rewrite !FindValue_app by assumption.
  change (FindValue (SaveConfig p) "topic") with (Some (topic (ui_ p))).
  change (FindValue (SaveConfig p) "output_frame")
    with (Some (Qt.currentText (outputframe (ui_ p)))).
  destruct (LoadConfig_fresh (topic (ui_ p))
              (Qt.currentText (outputframe (ui_ p))) angle0 target)
    as (Htopic & Hbox & Htext & Hpub).
  cbv zeta in Htopic, Hbox, Htext, Hpub.
  repeat split; try assumption.
  - now rewrite Hbox.
  - unfold SaveConfig. now rewrite Htopic, Htext.
Qed.

Lemma SaveConfig_LoadConfig_roundtrip_witness :
  let tr := [TopicEdited "/pose_out"; FrameTimer ["map"; "odom"]%string false;
             FrameChosen 1] in
  let p := snd (run tr (PosePublisherPlugin_new 0 "map")) in
  let host := [("visible", "true"); ("collapsed", "false")]%string in
  let q := LoadConfig_node (host ++ SaveConfig p) (PosePublisherPlugin_new 0 "map") in
  topic (ui_ q) = "/pose_out"%string /\
  Qt.currentText (outputframe (ui_ q)) = "odom"%string /\
  pose_pub_ q = Some "/pose_out"%string.
Proof.
  intros tr p host q.
  destruct (SaveConfig_LoadConfig_roundtrip host p 0 "map" eq_refl eq_refl)
    as (Htopic & _ & Htext & Hpub & _).
  split; [exact Htopic | split; [exact Htext | exact Hpub] ].
Defined.

(** X13.  A configured output frame stays selected.  After loading a
    configuration whose "output_frame" is a non-empty name into a freshly
    constructed plugin, that name is the current text of the frame box
    and remains so through any sequence of refresh ticks, whether or not
    the transform collaborator knows the frame. *)
Theorem configured_frame_survives_refreshes (node : YamlNode) (f : string)
    (angle0 : R) (target : string) (ticks : list (list string * bool)) :
  FindValue node "output_frame" = Some f ->
  f <> EmptyString ->
  let loaded := LoadConfig_node node (PosePublisherPlugin_new angle0 target) in
  Qt.currentText (outputframe (ui_ loaded)) = f /\
  Qt.currentText (outputframe (ui_ (snd (run (refresh_inputs ticks) loaded)))) = f.
Proof.
  intros Hfound Hne loaded.
  assert (Hloaded : Qt.currentText (outputframe (ui_ loaded)) = f).
  { subst loaded. unfold LoadConfig_node. rewrite Hfound.
    destruct (FindValue node "topic") as [t | ].
    - now destruct (LoadConfig_fresh t f angle0 target) as (_ & _ & Htext & _).
    - reflexivity. }
  split; [exact Hloaded | ].
  destruct (run_refresh_currentText ticks loaded) as [_ Hkeep];
    [ rewrite Hloaded; exact Hne | ].
  now rewrite Hkeep.
Qed.

Lemma configured_frame_survives_refreshes_witness :
  let node := [("topic", "/pose_out"); ("output_frame", "utm")]%string in
  let loaded := LoadConfig_node node (PosePublisherPlugin_new 0 "map") in
  let ticks := [(["map"]%string, false); (["map"; "odom"]%string, true)] in
  Qt.currentText (outputframe (ui_ (snd (run (refresh_inputs ticks) loaded))))
  = "utm"%string.
Proof.
  intros node loaded ticks.
  assert (Hne : "utm"%string <> EmptyString) by discriminate.
  exact (proj2 (configured_frame_survives_refreshes
                  node "utm" 0 "map" ticks eq_refl Hne)).
Defined.

(** ** Switching the toggle off during a drag *)

(** X14.  Unchecking the toggle during a drag does not end the session:
    the mouse-down flag stays set, [Draw] keeps painting the same arrow and
    mouse moves keep turning it.  If the toggle is checked again before the
    button is released, the release publishes the pose of that old
    session: its tail point and its heading. *)
Theorem toggle_off_keeps_stale_session (p : PosePublisherPlugin) :
  is_mouse_down_ p = true ->
  let off := after (step (PoseButtonSet false) p) in
  is_mouse_down_ off = true /\
  (forall x y scale, Draw x y scale off = Draw x y scale p) /\
  (forall c e,
     arrow_angle_ (after (handleMouseMove c e off))
     = arrow_angle_ (after (handleMouseMove c e p))) /\
  (forall now e,
     effects (handleMouseRelease now e (after (step (PoseButtonSet true) off)))
     = [Publish (pose_pub_ p)
          (Msg.mkPoseWithCovarianceStamped
             (Msg.mkHeader (target_frame_ p) now)
             (Msg.mkPoseWithCovariance
                (Msg.mkPose
                   (Msg.mkPoint (Qt.x (arrow_tail_position_ p))
                                (Qt.y (arrow_tail_position_ p)) 0)
                   (yaw_quaternion (arrow_angle_ p)))
                Msg.default_covariance))]).
Proof.
  intros Hdown off. subst off. cbn [step after].
  split; [exact Hdown | ]. split; [reflexivity | ].
  split.
  - intros c e. unfold handleMouseMove. cbn [with_ui is_mouse_down_].
    rewrite Hdown. reflexivity.
  - intros now e.
    rewrite handleMouseRelease_armed by (cbn; auto).
    reflexivity.
Qed.

Lemma toggle_off_keeps_stale_session_witness :
  let armed := with_ui (set_checked true) (PosePublisherPlugin_new 0 "map") in
  let p := after (handleMousePress canvas_id (left_at 1 2) armed) in
  let tr := [PoseButtonSet false; PoseButtonSet true;
             CanvasEvent canvas_id t0 (MouseButtonRelease (left_at 9 9))] in
  map (fun e => match e with
                | Publish _ m => Msg.position (Msg.pose (Msg.pose_cov m))
                end) (fst (run tr p))
  = [Msg.mkPoint 1 2 0].
Proof.
  intros armed p tr.
  destruct (toggle_off_keeps_stale_session p eq_refl) as (_ & _ & _ & Hrel).
  subst tr. cbn [run step eventFilter effects after app fst].
  cbn [step after] in Hrel. rewrite (Hrel t0 (left_at 9 9)).
  reflexivity.
Defined.
